(** * arduino-mouse-proxy: the host side of the serial protocol

    A shallow embedding of [python/arduino_mouse]: the packet codec of
    [protocol.py], the [Curve] enumeration of [curves.py] and the
    request/response session of [client.py], followed by the properties
    the specification states about them.

    Conventions.
    - A Python [int] is a [Z]; a [bytes] object is a [list Z] whose items
      are in [0, 256).
    - A function that may raise returns a [result]; the exception classes
      the package raises are the constructors of [exn].
    - A Python [float] is a binary64 value of the Standard Library's
      IEEE 754 specification ([spec_float], precision 53, emax 1024).
    - [serial.Serial] is not part of the package.  It is modelled as a
      simulated transport: a record holding the open flag, the read
      timeout, the input buffer, the log of frames written, the log of the
      timeouts the reads waited under and the answers the peer gives to
      the successive frames. *)

From Stdlib Require Import ZArith List String Ascii Bool Lia QArith.
From Stdlib Require Import DecimalString DecimalZ DecimalPos.
From Stdlib Require Import Floats.SpecFloat.
Import ListNotations.

Local Open Scope string_scope.
Local Open Scope list_scope.
Local Open Scope Z_scope.

(** ** Exceptions and results *)

(** An exception whose message prints a float carries the float instead of
    the printed text: [TimeoutError] carries the timeout (its message
    formats it with one decimal), and [ValueError_float prefix x] is the
    [ValueError] whose message is [prefix] followed by [repr(x)].
    [StructError] is [struct.error]; [SerialException] is pyserial's. *)
Inductive exn : Type :=
| ValueError (msg : string)
| ValueError_float (prefix : string) (x : spec_float)
| OverflowError (msg : string)
| ConnectionError (msg : string)
| TimeoutError (timeout_seconds : spec_float)
| ProtocolError (msg : string)
| SerialException (msg : string)
| StructError.

Inductive result (A : Type) : Type :=
| Ok (a : A)
| Raise (e : exn).
Arguments Ok {A} a.
Arguments Raise {A} e.

(** ** Floats *)

Module Float.

Definition t : Type := spec_float.
Definition prec : Z := 53.
Definition emax : Z := 1024.

Definition zero : t := S754_zero false.
(** The literals [1.0] and [1000.0]. *)
Definition one : t := S754_finite false 4503599627370496 (-52).
Definition thousand : t := S754_finite false 8796093022208000 (-43).

(** [float(n)] for an int, as an arithmetic operator converts its int
    operand: the nearest double, ties to even; [OverflowError] when that
    is beyond the largest one. *)
Definition of_int (n : Z) : result t :=
  match binary_normalize prec emax n 0 false with
  | S754_infinity _ => Raise (OverflowError "int too large to convert to float")
  | x => Ok x
  end.

(** [x / y] for a divisor that is not zero. *)
Definition div (x y : t) : t := SFdiv prec emax x y.

(** [x < y] *)
Definition ltb (x y : t) : bool := SFltb x y.

(** The sign bit ([false] for NaN). *)
Definition sign (x : t) : bool :=
  match x with
  | S754_zero s | S754_infinity s | S754_finite s _ _ => s
  | S754_nan => false
  end.

(** The rational a finite float stands for (0 for the others). *)
Definition value (x : t) : Q :=
  match x with
  | S754_finite s m e =>
      let z := if s then Z.neg m else Z.pos m in
      match e with
      | Z0 => inject_Z z
      | Zpos k => inject_Z (z * 2 ^ Zpos k)
      | Zneg k => Qmake z (2 ^ k)
      end
  | _ => 0%Q
  end.

End Float.

(** [str(n)] for a Python int, as the f-strings of the package print it. *)
Definition str (n : Z) : string := NilZero.string_of_int (Z.to_int n).

(** [len(b)] *)
Definition len {A} (b : list A) : Z := Z.of_nat (List.length b).

(** ** protocol.py *)

Module Protocol.

Definition START_BYTE : Z := 0xAA.
Definition CMD_MOVE : Z := 0x01.
Definition PACKET_SIZE : Z := 10.

Definition ACK_OK : Z := 0x00.
Definition NAK_CHECKSUM : Z := 0x01.
Definition NAK_INVALID : Z := 0x02.
Definition NAK_INTERRUPTED : Z := 0x03.

(** *** [struct.pack] for the format ['<BBhhHB']

    Little-endian, standard sizes, no padding.  A field is range-checked
    ([struct.error] otherwise) and then stored low byte first, byte [k]
    being bits [8k .. 8k+7] of the two's-complement value. *)

Definition le_bytes (size : nat) (x : Z) : list Z :=
  map (fun k => Z.land (Z.shiftr x (8 * Z.of_nat k)) 0xFF) (seq 0 size).

Definition pack_B (x : Z) : result (list Z) :=
  if (0 <=? x) && (x <=? 255) then Ok (le_bytes 1 x) else Raise StructError.

Definition pack_h (x : Z) : result (list Z) :=
  if (-32768 <=? x) && (x <=? 32767) then Ok (le_bytes 2 x) else Raise StructError.

Definition pack_H (x : Z) : result (list Z) :=
  if (0 <=? x) && (x <=? 65535) then Ok (le_bytes 2 x) else Raise StructError.

Definition bind {A B} (r : result A) (k : A -> result B) : result B :=
  match r with
  | Ok a => k a
  | Raise e => Raise e
  end.

Notation "x <- r ;; k" := (bind r (fun x => k))
  (at level 61, r at next level, right associativity).

(** [struct.pack('<BBhhHB', start, cmd, dx, dy, duration_ms, curve)] *)
Definition struct_pack_BBhhHB (start cmd dx dy duration_ms curve : Z)
  : result (list Z) :=
  b0 <- pack_B start ;;
  b1 <- pack_B cmd ;;
  b2 <- pack_h dx ;;
  b4 <- pack_h dy ;;
  b6 <- pack_H duration_ms ;;
  b8 <- pack_B curve ;;
  Ok (b0 ++ b1 ++ b2 ++ b4 ++ b6 ++ b8).

(** The loop [checksum = 0; for byte in packet: checksum ^= byte]. *)
Definition xor_fold (packet : list Z) : Z :=
  fold_left (fun checksum byte => Z.lxor checksum byte) packet 0.

Definition encode_move_command (dx dy duration_ms curve : Z) : result (list Z) :=
  if negb ((-32768 <=? dx) && (dx <=? 32767)) then
    Raise (ValueError ("dx must be in range [-32768, 32767], got " ++ str dx))
  else if negb ((-32768 <=? dy) && (dy <=? 32767)) then
    Raise (ValueError ("dy must be in range [-32768, 32767], got " ++ str dy))
  else if negb ((1 <=? duration_ms) && (duration_ms <=? 65535)) then
    Raise (ValueError ("duration_ms must be in range [1, 65535], got "
                       ++ str duration_ms))
  else if negb ((0 <=? curve) && (curve <=? 3)) then
    Raise (ValueError ("curve must be in range [0, 3], got " ++ str curve))
  else
    packet <- struct_pack_BBhhHB START_BYTE CMD_MOVE dx dy duration_ms curve ;;
    let checksum := xor_fold packet in
    Ok (packet ++ [checksum]).

Definition decode_response (response : list Z) : result (bool * Z) :=
  if negb (len response =? 1) then
    Raise (ProtocolError ("Expected 1-byte response, got "
                          ++ str (len response) ++ " bytes"))
  else
    let code := nth 0 response 0 in
    let success := code =? ACK_OK in
    Ok (success, code).

Definition response_code_to_string (code : Z) : string :=
  if code =? ACK_OK then "Movement completed successfully"
  else if code =? NAK_CHECKSUM then "Checksum error"
  else if code =? NAK_INVALID then "Invalid command"
  else if code =? NAK_INTERRUPTED then "Movement interrupted by new command"
  else "Unknown response code: " ++ str code.

End Protocol.

Import Protocol.

(** ** curves.py *)

Module Curves.

(** [class Curve(IntEnum)] *)
Inductive Curve : Type := LINEAR | EASE_IN | EASE_OUT | EASE_IN_OUT.

(** [int(member)] *)
Definition int (c : Curve) : Z :=
  match c with
  | LINEAR => 0
  | EASE_IN => 1
  | EASE_OUT => 2
  | EASE_IN_OUT => 3
  end.

(** The values a caller may pass where [move] expects a curve. *)
Inductive pyval : Type :=
| PyCurve (c : Curve)
| PyInt (n : Z)
| PyBool (b : bool)
| PyStr (s : string)
| PyNone.

(** [isinstance(v, Curve)], with the member when it holds. *)
Definition as_Curve (v : pyval) : option Curve :=
  match v with
  | PyCurve c => Some c
  | _ => None
  end.

(** Lookup of an enum member by its integer value. *)
Definition by_value (n : Z) : option Curve :=
  if n =? 0 then Some LINEAR
  else if n =? 1 then Some EASE_IN
  else if n =? 2 then Some EASE_OUT
  else if n =? 3 then Some EASE_IN_OUT
  else None.

(** The call [Curve(v)]: the member whose value equals [v]; [None] stands
    for the [ValueError] that [Enum] raises when there is none.  A bool
    compares (and hashes) equal to 0 or 1. *)
Definition Curve_call (v : pyval) : option Curve :=
  match v with
  | PyCurve c => Some c
  | PyInt n => by_value n
  | PyBool b => by_value (if b then 1 else 0)
  | PyStr _ => None
  | PyNone => None
  end.

(** [format(v)], as an f-string field prints the value. *)
Definition pyformat (v : pyval) : string :=
  match v with
  | PyCurve c => str (int c)
  | PyInt n => str n
  | PyBool b => if b then "True" else "False"
  | PyStr s => s
  | PyNone => "None"
  end.

End Curves.

Import Curves.

(** ** The transport: a simulated [serial.Serial] *)

Module Serial.

Record t : Type := mk {
  is_open : bool;
  timeout : Float.t;            (* read timeout, in seconds *)
  in_buffer : list Z;           (* bytes received and not yet read *)
  written : list (list Z);      (* every [write], oldest first *)
  deadlines : list Float.t;     (* the timeout each [read] waited under *)
  peer : list (list Z)          (* what the peer answers to the next writes *)
}.

(** [reset_input_buffer()]: drop what has been received so far. *)
Definition reset_input_buffer (s : t) : t :=
  mk (is_open s) (timeout s) [] (written s) (deadlines s) (peer s).

(** [write(data)]: the frame goes out and the peer's next answer (nothing
    once the script is exhausted) arrives in the input buffer. *)
Definition write (data : list Z) (s : t) : t :=
  mk (is_open s) (timeout s) (in_buffer s ++ hd [] (peer s))
     (written s ++ [data]) (deadlines s) (tl (peer s)).

(** [flush()] *)
Definition flush (s : t) : t := s.

(** [self.timeout = seconds]: the setter refuses a negative number with
    [ValueError("Not a valid timeout: ...")] and leaves the timeout as it
    was. *)
Definition set_timeout (seconds : Float.t) (s : t) : result unit * t :=
  if Float.ltb seconds Float.zero
  then (Raise (ValueError_float "Not a valid timeout: " seconds), s)
  else (Ok tt,
        mk (is_open s) seconds (in_buffer s) (written s) (deadlines s)
           (peer s)).

(** [read(size)]: waits under the timeout in force, which the log records,
    for up to [size] bytes of what has arrived; fewer (possibly none) when
    the timeout expires first. *)
Definition read (size : nat) (s : t) : list Z * t :=
  (firstn size (in_buffer s),
   mk (is_open s) (timeout s) (skipn size (in_buffer s)) (written s)
      (deadlines s ++ [timeout s]) (peer s)).

(** [close()] *)
Definition close (s : t) : t :=
  mk false (timeout s) (in_buffer s) (written s) (deadlines s) (peer s).

(** What the operating system has behind a port name when
    [serial.Serial(port=..., baudrate=..., timeout=...)] opens it. *)
Inductive port_env : Type :=
| Absent (reason : string)            (* opening raises SerialException *)
| Present (answers : list (list Z))   (* opening succeeds *)
| Unsupported (e : exn).              (* opening raises another exception:
                                         settings the platform refuses *)

(** The constructor: the object it builds, and the exception it raises if
    any.  The baud rate is set before the port is opened, and a negative one
    is refused with [ValueError("Not a valid baudrate: ...")]. *)
Definition new (env : port_env) (baudrate : Z) (timeout : Float.t)
  : t * option exn :=
  if baudrate <? 0
  then (mk false timeout [] [] [] [],
        Some (ValueError ("Not a valid baudrate: " ++ str baudrate)))
  else
    match env with
    | Absent reason => (mk false timeout [] [] [] [], Some (SerialException reason))
    | Present answers => (mk true timeout [] [] [] answers, None)
    | Unsupported e => (mk false timeout [] [] [] [], Some e)
    end.

End Serial.

(** ** client.py *)

Module Client.

(** The one [serial.Serial] object a session creates lives in the world;
    the session holds a reference to it, or [None]. *)
Inductive SerialRef : Type := the_serial.

Record ArduinoMouse : Type := mkMouse {
  port : string;
  baudrate : Z;
  timeout_buffer_ms : Z;
  MAX_RETRIES : Z;                 (* class attribute, read as [self.MAX_RETRIES] *)
  _serial : option SerialRef
}.

Record World : Type := mkWorld {
  self : ArduinoMouse;
  tty : Serial.t
}.

Definition DEFAULT_BAUDRATE : Z := 115200.
Definition DEFAULT_TIMEOUT_BUFFER_MS : Z := 1000.
(** The class body's [MAX_RETRIES = 1]: what [self.MAX_RETRIES] finds on an
    instance that does not override it. *)
Definition DEFAULT_MAX_RETRIES : Z := 1.

(** *** Methods run in a state-and-exception monad over the world *)

Definition M (A : Type) : Type := World -> result A * World.

Definition ret {A} (a : A) : M A := fun w => (Ok a, w).
Definition raise {A} (e : exn) : M A := fun w => (Raise e, w).
Definition mbind {A B} (m : M A) (k : A -> M B) : M B :=
  fun w =>
    match m w with
    | (Ok a, w') => k a w'
    | (Raise e, w') => (Raise e, w')
    end.
Definition lift {A} (r : result A) : M A := fun w => (r, w).
Definition get_self : M ArduinoMouse := fun w => (Ok (self w), w).
Definition on_serial (f : Serial.t -> Serial.t) : M unit :=
  fun w => (Ok tt, mkWorld (self w) (f (tty w))).
Definition serial_set_timeout (seconds : Float.t) : M unit :=
  fun w => let (r, s) := Serial.set_timeout seconds (tty w) in
           (r, mkWorld (self w) s).
Definition serial_read (size : nat) : M (list Z) :=
  fun w => let (data, s) := Serial.read size (tty w) in
           (Ok data, mkWorld (self w) s).
Definition set__serial (r : option SerialRef) : M unit :=
  fun w =>
    let m := self w in
    (Ok tt, mkWorld (mkMouse (port m) (baudrate m) (timeout_buffer_ms m)
                             (MAX_RETRIES m) r) (tty w)).

Declare Scope py_scope.
Delimit Scope py_scope with py.
Notation "x <~ m ;; k" := (mbind m (fun x => k))
  (at level 61, m at next level, right associativity) : py_scope.
Notation "m ;;; k" := (mbind m (fun _ => k))
  (at level 61, right associativity) : py_scope.
Local Open Scope py_scope.

(** [range(n)] *)
Definition range (n : Z) : list Z := map Z.of_nat (seq 0 (Z.to_nat n)).

(** [_connect]: this is where the session's [serial.Serial] object comes
    into being, so it takes the session alone and yields a world. *)
Definition _connect (m : ArduinoMouse) (env : Serial.port_env)
  : result unit * World :=
  match Serial.new env (baudrate m) Float.one with
  | (s, None) =>
      (Ok tt, mkWorld (mkMouse (port m) (baudrate m) (timeout_buffer_ms m)
                               (MAX_RETRIES m) (Some the_serial)) s)
  | (s, Some (SerialException e)) =>
      (Raise (ConnectionError ("Failed to connect to Arduino on "
                               ++ port m ++ ": " ++ e)),
       mkWorld m s)
  | (s, Some e) => (Raise e, mkWorld m s)
  end.

Definition __init__ (port : string) (baudrate timeout_buffer_ms : Z)
    (env : Serial.port_env) : result unit * World :=
  _connect (mkMouse port baudrate timeout_buffer_ms DEFAULT_MAX_RETRIES None)
           env.

Definition _ensure_connected : M unit :=
  fun w =>
    match _serial (self w) with
    | None => raise (ConnectionError "Not connected to Arduino") w
    | Some _ =>
        if negb (Serial.is_open (tty w))
        then raise (ConnectionError "Not connected to Arduino") w
        else ret tt w
    end.

(** The body of [for attempt in range(self.MAX_RETRIES + 1)], by recursion on
    the attempts still to run.  Falling out of the loop returns [None]. *)
Fixpoint send_with_retry (command : list Z) (timeout_seconds : Float.t)
    (attempts : list Z) : M unit :=
  match attempts with
  | [] => ret tt
  | attempt :: rest =>
      on_serial Serial.reset_input_buffer ;;;
      on_serial (Serial.write command) ;;;
      on_serial Serial.flush ;;;
      serial_set_timeout timeout_seconds ;;;
      response <~ serial_read 1 ;;
      if len response =? 0 then raise (TimeoutError timeout_seconds)
      else
        r <~ lift (decode_response response) ;;
        let (success, code) := (r : bool * Z) in
        if success then ret tt
        else
          m <~ get_self ;;
          if (code =? NAK_CHECKSUM) && (attempt <? MAX_RETRIES m)
          then send_with_retry command timeout_seconds rest
          else raise (ProtocolError ("Movement failed: "
                                     ++ response_code_to_string code))
  end.

(** [(duration_ms + self.timeout_buffer_ms) / 1000.0]: the int sum is
    converted to a float and divided by the literal. *)
Definition move (dx dy duration_ms : Z) (curve : pyval) : M unit :=
  _ensure_connected ;;;
  curve <~ match as_Curve curve with
           | None =>
               match Curve_call curve with
               | Some c => ret c
               | None => raise (ValueError ("Invalid curve value: "
                                            ++ pyformat curve))
               end
           | Some c => ret c
           end ;;
  command <~ lift (encode_move_command dx dy duration_ms (Curves.int curve)) ;;
  m <~ get_self ;;
  budget <~ lift (Float.of_int (duration_ms + timeout_buffer_ms m)) ;;
  let timeout_seconds := Float.div budget Float.thousand in
  send_with_retry command timeout_seconds (range (MAX_RETRIES m + 1)).

Definition close : M unit :=
  fun w =>
    match _serial (self w) with
    | Some _ =>
        if Serial.is_open (tty w)
        then (on_serial Serial.close ;;; set__serial None) w
        else ret tt w
    | None => ret tt w
    end.

Definition __enter__ : M unit := ret tt.
Definition __exit__ : M unit := close.
Definition __del__ : M unit := close.

End Client.

Import Client.
Local Open Scope py_scope.


(** ** Vocabulary of the specification *)

Definition is_byte (b : Z) : Prop := 0 <= b < 256.

(** The ranges of a valid move command. *)
Definition valid_command (dx dy duration_ms curve : Z) : Prop :=
  -32768 <= dx <= 32767 /\ -32768 <= dy <= 32767 /\
  1 <= duration_ms <= 65535 /\ 0 <= curve <= 3.

(** A 16-bit field on the wire, low byte first: two's complement for the
    signed fields. *)
Definition int16_le_bytes (x : Z) : list Z :=
  let u := x mod 65536 in [u mod 256; u / 256].

Definition uint16_le_bytes (x : Z) : list Z := [x mod 256; x / 256].

(** The nine bytes before the checksum, as the wire format lays them out:
    start, command, dx, dy, duration, curve. *)
Definition payload (dx dy duration_ms curve : Z) : list Z :=
  [0xAA; 0x01] ++ int16_le_bytes dx ++ int16_le_bytes dy
  ++ uint16_le_bytes duration_ms ++ [curve].

Definition uint16_le (lo hi : Z) : Z := lo + 256 * hi.

Definition int16_le (lo hi : Z) : Z :=
  let u := uint16_le lo hi in if u <? 32768 then u else u - 65536.

(** Modelled from the spec: [decode_header], the reader the round-trip
    property applies to a frame.  The package has no such function; it reads
    bytes 2-3 and 4-5 as signed little-endian 16-bit, bytes 6-7 as unsigned
    little-endian 16-bit and byte 8 as it is. *)
Definition decode_header (frame : list Z) : option (Z * Z * Z * Z) :=
  match frame with
  | [_; _; b2; b3; b4; b5; b6; b7; b8; _] =>
      Some (int16_le b2 b3, int16_le b4 b5, uint16_le b6 b7, b8)
  | _ => None
  end.

(** Modelled from the spec: a frame is well-formed iff its trailing byte
    equals the XOR of the first nine. *)
Definition well_formed (frame : list Z) : bool :=
  (len frame =? PACKET_SIZE) && (nth 9 frame 0 =? xor_fold (firstn 9 frame)).

(** The frame with bit [k] of byte [i] inverted. *)
Fixpoint flip_bit (i : nat) (k : Z) (frame : list Z) : list Z :=
  match frame, i with
  | [], _ => []
  | b :: rest, O => Z.lxor b (Z.shiftl 1 k) :: rest
  | b :: rest, S i' => b :: flip_bit i' k rest
  end.

(** The session holds an open transport. *)
Definition connected (w : World) : bool :=
  match _serial (self w) with
  | Some _ => Serial.is_open (tty w)
  | None => false
  end.

(** Number of frames written to the transport so far. *)
Definition writes (w : World) : nat := List.length (Serial.written (tty w)).

(** The transport object is reachable only through the session: once the
    session has dropped its reference the port is not open. *)
Definition owned (w : World) : Prop :=
  _serial (self w) = None -> Serial.is_open (tty w) = false.

(** A session as [ArduinoMouse(port)] builds it (all defaults) on a port
    whose peer answers the successive frames with [answers]. *)
Definition session_on (answers : list (list Z)) : World :=
  snd (__init__ "/dev/ttyACM0" DEFAULT_BAUDRATE DEFAULT_TIMEOUT_BUFFER_MS
                (Serial.Present answers)).


(** The member [move] ends up with for a curve argument: the argument itself
    when it is a member, else what [Curve(...)] finds. *)
Definition curve_of (v : pyval) : option Curve :=
  match as_Curve v with
  | Some c => Some c
  | None => Curve_call v
  end.

(** The wait budget of a call, in milliseconds. *)
Definition budget_ms (w : World) (duration_ms : Z) : Z :=
  duration_ms + timeout_buffer_ms (self w).

(** An int that converts to a float (no [OverflowError]). *)
Definition fits_float (n : Z) : Prop := exists x, Float.of_int n = Ok x.

(** The read timeout [move] computes, in seconds. *)
Definition timeout_seconds_of (w : World) (duration_ms : Z) : result Float.t :=
  match Float.of_int (budget_ms w duration_ms) with
  | Ok budget => Ok (Float.div budget Float.thousand)
  | Raise e => Raise e
  end.

(** The Python class of an exception is [ValueError]. *)
Definition is_ValueError (e : exn) : bool :=
  match e with
  | ValueError _ | ValueError_float _ _ => true
  | _ => false
  end.

(** The world after one pass of the loop body up to and including
    [flush()]. *)
Definition after_write (command : list Z) (w : World) : World :=
  mkWorld (self w)
          (Serial.mk (Serial.is_open (tty w)) (Serial.timeout (tty w))
                     (hd [] (Serial.peer (tty w)))
                     (Serial.written (tty w) ++ [command])
                     (Serial.deadlines (tty w))
                     (tl (Serial.peer (tty w)))).

(** The answer the peer gives to the next frame written. *)
Definition next_answer (w : World) : list Z := hd [] (Serial.peer (tty w)).

(** The world after one pass of the loop body up to and including
    [read(1)]. *)
Definition after_exchange (command : list Z) (timeout_seconds : Float.t)
    (w : World) : World :=
  mkWorld (self w)
          (Serial.mk (Serial.is_open (tty w)) timeout_seconds
                     (skipn 1 (next_answer w))
                     (Serial.written (tty w) ++ [command])
                     (Serial.deadlines (tty w) ++ [timeout_seconds])
                     (tl (Serial.peer (tty w)))).

(** An answer whose first byte is NAK_CHECKSUM. *)
Definition is_nak_checksum (answer : list Z) : Prop :=
  hd_error answer = Some NAK_CHECKSUM.

(** The world with [stale] sitting unread in the transport's input buffer,
    as an abandoned exchange leaves it. *)
Definition with_in_buffer (stale : list Z) (w : World) : World :=
  mkWorld (self w)
          (Serial.mk (Serial.is_open (tty w)) (Serial.timeout (tty w)) stale
                     (Serial.written (tty w)) (Serial.deadlines (tty w))
                     (Serial.peer (tty w))).

(** ** examples/basic_usage.py *)

Module Example.

(** The script's process: the lines it has printed and the world of its
    session.  [print] appends its argument to the output; [time.sleep] lets
    time pass and changes neither. *)
Record Proc : Type := mkProc {
  stdout : list string;
  world : World
}.

Definition IO (A : Type) : Type := Proc -> result A * Proc.

Definition io_ret {A} (a : A) : IO A := fun p => (Ok a, p).
Definition io_bind {A B} (m : IO A) (k : A -> IO B) : IO B :=
  fun p =>
    match m p with
    | (Ok a, p') => k a p'
    | (Raise e, p') => (Raise e, p')
    end.
Definition print (line : string) : IO unit :=
  fun p => (Ok tt, mkProc (stdout p ++ [line]) (world p)).
Definition time_sleep (seconds : Q) : IO unit := io_ret tt.
(** A method call on [mouse]. *)
Definition call {A} (m : M A) : IO A :=
  fun p => let (r, w) := m (world p) in (r, mkProc (stdout p) w).

Notation "m >>> k" := (io_bind m (fun _ => k))
  (at level 62, right associativity).

(** [with <session> as mouse: body]: [__enter__], the body, and [__exit__]
    on the way out whether the body returned or raised.  [__exit__] returns
    [None], so an exception of the body goes on to the caller. *)
Definition with_mouse {A} (body : IO A) : IO A :=
  fun p =>
    match call __enter__ p with
    | (Raise e, p1) => (Raise e, p1)
    | (Ok _, p1) =>
        let (r, p2) := body p1 in
        match call __exit__ p2 with
        | (Raise e, p3) => (Raise e, p3)
        | (Ok _, p3) => (r, p3)
        end
    end.

(** The line feed of the ["\n"] escapes. *)
Definition nl : string := String "010" "".

(** The body of the [with] block of [main]. *)
Definition demo : IO unit :=
  print "Connected! Starting mouse movement demo..." >>>
  print "(Move your eyes to the mouse cursor to see the effect)" >>>
  time_sleep 1 >>>
  print (nl ++ "1. Drawing a square (LINEAR curve)...") >>>
  call (move 200 0 500 (PyCurve LINEAR)) >>>
  call (move 0 200 500 (PyCurve LINEAR)) >>>
  call (move (-200) 0 500 (PyCurve LINEAR)) >>>
  call (move 0 (-200) 500 (PyCurve LINEAR)) >>>
  time_sleep 1 >>>
  print (nl ++ "2. Smooth diagonal movement (EASE_IN_OUT curve)...") >>>
  call (move 300 150 1000 (PyCurve EASE_IN_OUT)) >>>
  time_sleep (1 # 2) >>>
  print (nl ++ "3. Quick return (EASE_OUT curve)...") >>>
  call (move (-300) (-150) 400 (PyCurve EASE_OUT)) >>>
  time_sleep 1 >>>
  print (nl ++ "4. Slow start movement (EASE_IN curve)...") >>>
  call (move 100 (-100) 800 (PyCurve EASE_IN)) >>>
  print (nl ++ "Demo complete!").

(** [main()], run where the operating system has [env] behind the port
    name.  [ArduinoMouse(port=port)] is evaluated before the block is
    entered: if it raises, the block and its [__exit__] do not run. *)
Definition main (env : Serial.port_env) : result unit * Proc :=
  let port := "/dev/ttyACM0" in
  let out := ["Connecting to Arduino on " ++ port ++ "..."]%string in
  match __init__ port DEFAULT_BAUDRATE DEFAULT_TIMEOUT_BUFFER_MS env with
  | (Raise e, w) => (Raise e, mkProc out w)
  | (Ok _, w) => with_mouse demo (mkProc out w)
  end.

(** The seven commands of the demo, in order, with their curve codes. *)
Definition demo_commands : list (Z * Z * Z * Z) :=
  [(200, 0, 500, 0); (0, 200, 500, 0); (-200, 0, 500, 0); (0, -200, 500, 0);
   (300, 150, 1000, 3); (-300, -150, 400, 2); (100, -100, 800, 1)].

End Example.

(** A step of the script that leaves the session object and the open flag
    of its transport as they were and, under the default retry budget,
    writes at most [hi] frames, and at least [lo] when it returns
    normally. *)
Definition sends_between {A} (lo hi : nat) (m : Example.IO A) : Prop :=
  forall p,
    self (Example.world (snd (m p))) = self (Example.world p) /\
    Serial.is_open (tty (Example.world (snd (m p)))) =
    Serial.is_open (tty (Example.world p)) /\
    (MAX_RETRIES (self (Example.world p)) = 1 ->
     (writes (Example.world (snd (m p))) <= writes (Example.world p) + hi)%nat /\
     ((exists a, fst (m p) = Ok a) ->
      (writes (Example.world p) + lo <= writes (Example.world (snd (m p))))%nat)).

(** * Properties of the packet codec *)

Section Codec.

Lemma land_255 (x : Z) : Z.land x 0xFF = x mod 256.
Proof. change 0xFF with (Z.ones 8). rewrite Z.land_ones by lia. reflexivity. Qed.

Lemma le_bytes_1 (x : Z) : 0 <= x <= 255 -> le_bytes 1 x = [x].
Proof.
  intros H. unfold le_bytes. simpl. rewrite Z.shiftr_0_r, land_255.
  rewrite Z.mod_small by lia. reflexivity.
Qed.

Lemma le_bytes_2_signed (x : Z) : le_bytes 2 x = int16_le_bytes x.
Proof.
  unfold le_bytes, int16_le_bytes. simpl.
  rewrite Z.shiftr_0_r, !land_255, Z.shiftr_div_pow2 by lia.
  change (2 ^ 8) with 256.
  f_equal; [|f_equal]; Z.div_mod_to_equations; lia.
Qed.

Lemma le_bytes_2_unsigned (x : Z) :
  0 <= x <= 65535 -> le_bytes 2 x = uint16_le_bytes x.
Proof.
  intros H. rewrite le_bytes_2_signed. unfold int16_le_bytes, uint16_le_bytes.
  rewrite (Z.mod_small x 65536) by lia. reflexivity.
Qed.

Lemma range_check lo hi x :
  lo <= x <= hi -> (lo <=? x) && (x <=? hi) = true.
Proof. intros H. apply andb_true_intro. split; apply Z.leb_le; lia. Qed.

Lemma range_check_false lo hi x :
  ~ (lo <= x <= hi) -> (lo <=? x) && (x <=? hi) = false.
Proof.
  intros H. destruct (lo <=? x) eqn:E1; destruct (x <=? hi) eqn:E2; auto.
  apply Z.leb_le in E1. apply Z.leb_le in E2. lia.
Qed.

Lemma encode_valid dx dy duration_ms curve :
  valid_command dx dy duration_ms curve ->
  encode_move_command dx dy duration_ms curve =
  Ok (payload dx dy duration_ms curve
      ++ [xor_fold (payload dx dy duration_ms curve)]).
Proof.
  intros (Hx & Hy & Hd & Hc). unfold encode_move_command.
  rewrite !range_check by assumption. simpl negb. cbv iota.
  unfold struct_pack_BBhhHB, pack_B, pack_h, pack_H, START_BYTE, CMD_MOVE.
  rewrite !range_check by lia. unfold bind.
  rewrite !le_bytes_1 by lia.
  rewrite (le_bytes_2_unsigned duration_ms) by lia.
  rewrite !le_bytes_2_signed. reflexivity.
Qed.

Lemma int16_le_bytes_byte x : Forall is_byte (int16_le_bytes x).
Proof.
  unfold int16_le_bytes, is_byte. repeat constructor;
    Z.div_mod_to_equations; lia.
Qed.

Lemma uint16_le_bytes_byte x :
  0 <= x <= 65535 -> Forall is_byte (uint16_le_bytes x).
Proof.
  intros H. unfold uint16_le_bytes, is_byte. repeat constructor;
    Z.div_mod_to_equations; lia.
Qed.

Lemma lxor_byte a b : is_byte a -> is_byte b -> is_byte (Z.lxor a b).
Proof.
  unfold is_byte. intros Ha Hb. split.
  - apply Z.lxor_nonneg. lia.
  - destruct (Z.eq_dec (Z.lxor a b) 0) as [->|Hne]; [lia|].
    assert (0 <= Z.lxor a b) by (apply Z.lxor_nonneg; lia).
    apply Z.log2_lt_pow2 with (b := 8); [lia|].
    assert (Z.log2 a < 8) by
      (destruct (Z.eq_dec a 0) as [->|]; [simpl; lia| apply Z.log2_lt_pow2; lia]).
    assert (Z.log2 b < 8) by
      (destruct (Z.eq_dec b 0) as [->|]; [simpl; lia| apply Z.log2_lt_pow2; lia]).
    pose proof (Z.log2_lxor a b). lia.
Qed.

Lemma xor_fold_from_byte l : forall acc,
  is_byte acc -> Forall is_byte l ->
  is_byte (fold_left (fun checksum byte => Z.lxor checksum byte) l acc).
Proof.
  induction l as [|b l IH]; intros acc Ha Hl; simpl; [assumption|].
  inversion Hl; subst. apply IH; [apply lxor_byte|]; assumption.
Qed.

Lemma xor_fold_byte l : Forall is_byte l -> is_byte (xor_fold l).
Proof. apply xor_fold_from_byte. unfold is_byte. lia. Qed.

Lemma payload_length dx dy duration_ms curve :
  List.length (payload dx dy duration_ms curve) = 9%nat.
Proof. reflexivity. Qed.

Lemma payload_byte dx dy duration_ms curve :
  valid_command dx dy duration_ms curve ->
  Forall is_byte (payload dx dy duration_ms curve).
Proof.
  intros (Hx & Hy & Hd & Hc). unfold payload.
  apply Forall_app; split.
  { repeat (apply Forall_cons || apply Forall_nil); unfold is_byte; lia. }
  apply Forall_app; split; [apply int16_le_bytes_byte|].
  apply Forall_app; split; [apply int16_le_bytes_byte|].
  apply Forall_app; split; [apply uint16_le_bytes_byte; lia|].
  repeat (apply Forall_cons || apply Forall_nil); unfold is_byte; lia.
Qed.

Lemma int16_le_roundtrip x :
  -32768 <= x <= 32767 ->
  int16_le (x mod 65536 mod 256) (x mod 65536 / 256) = x.
Proof.
  intros H. unfold int16_le, uint16_le.
  replace (x mod 65536 mod 256 + 256 * (x mod 65536 / 256)) with (x mod 65536)
    by (Z.div_mod_to_equations; lia).
  destruct (Z.ltb_spec (x mod 65536) 32768); Z.div_mod_to_equations; lia.
Qed.

Lemma uint16_le_roundtrip x : uint16_le (x mod 256) (x / 256) = x.
Proof. unfold uint16_le. Z.div_mod_to_equations; lia. Qed.

(** XOR-ing a mask into the accumulator or into one item of the list shifts
    the fold by that mask. *)
Lemma xor_fold_acc l : forall acc m,
  fold_left (fun checksum byte => Z.lxor checksum byte) l (Z.lxor acc m) =
  Z.lxor (fold_left (fun checksum byte => Z.lxor checksum byte) l acc) m.
Proof.
  induction l as [|b l IH]; intros acc m; simpl; [reflexivity|].
  rewrite <- IH. f_equal.
  rewrite !Z.lxor_assoc. f_equal. apply Z.lxor_comm.
Qed.

Lemma xor_fold_flip l : forall i k acc,
  (i < List.length l)%nat ->
  fold_left (fun checksum byte => Z.lxor checksum byte) (flip_bit i k l) acc =
  Z.lxor (fold_left (fun checksum byte => Z.lxor checksum byte) l acc)
         (Z.shiftl 1 k).
Proof.
  induction l as [|b l IH]; intros i k acc Hi; simpl in Hi; [lia|].
  destruct i as [|i]; simpl.
  - rewrite <- Z.lxor_assoc. apply xor_fold_acc.
  - apply IH. lia.
Qed.

Lemma firstn_flip n : forall i k l,
  (i < n)%nat -> firstn n (flip_bit i k l) = flip_bit i k (firstn n l).
Proof.
  induction n as [|n IH]; intros i k l Hi; [lia|].
  destruct l as [|b l]; [destruct i; reflexivity|].
  destruct i as [|i]; simpl; [reflexivity|].
  f_equal. apply IH. lia.
Qed.

Lemma nth_flip n : forall i k l d,
  i <> n -> nth n (flip_bit i k l) d = nth n l d.
Proof.
  induction n as [|n IH]; intros i k l d Hi; destruct l as [|b l];
    destruct i as [|i]; simpl; try reflexivity; try congruence.
  apply IH. congruence.
Qed.

Lemma length_flip l : forall i k, List.length (flip_bit i k l) = List.length l.
Proof.
  induction l as [|b l IH]; intros [|i] k; simpl; auto.
Qed.

Lemma lxor_mask_neq a k : 0 <= k -> Z.lxor a (Z.shiftl 1 k) <> a.
Proof.
  intros Hk E.
  assert (Hm : Z.shiftl 1 k = 0).
  { rewrite <- (Z.lxor_nilpotent a). rewrite <- E at 2.
    rewrite <- Z.lxor_assoc, Z.lxor_nilpotent, Z.lxor_0_l. reflexivity. }
  rewrite Z.shiftl_1_l in Hm. pose proof (Z.pow_pos_nonneg 2 k). lia.
Qed.

End Codec.

(** C1.  For every valid input ([dx], [dy] in [-32768, 32767], [duration_ms]
    in [1, 65535], [curve] in [0, 3]) [encode_move_command] returns exactly
    10 bytes: byte 0 is 0xAA, byte 1 is 0x01, bytes 2-3 are [dx] and bytes
    4-5 are [dy] as signed (two's complement) little-endian 16-bit, bytes 6-7
    are [duration_ms] as unsigned little-endian 16-bit, byte 8 is [curve] and
    byte 9 is the XOR of bytes 0 to 8.  In particular
    [encode_move_command 200 0 500 0] is AA 01 C8 00 00 00 F4 01 00 followed
    by the XOR of those nine bytes. *)
Theorem encode_move_command_layout :
  (forall dx dy duration_ms curve,
      valid_command dx dy duration_ms curve ->
      exists frame,
        encode_move_command dx dy duration_ms curve = Ok frame /\
        List.length frame = 10%nat /\
        Forall is_byte frame /\
        firstn 9 frame =
          [0xAA; 0x01;
           (dx mod 65536) mod 256; (dx mod 65536) / 256;
           (dy mod 65536) mod 256; (dy mod 65536) / 256;
           duration_ms mod 256; duration_ms / 256;
           curve] /\
        nth 9 frame 0 =
          Z.lxor (Z.lxor (Z.lxor (Z.lxor (Z.lxor (Z.lxor (Z.lxor (Z.lxor
            (nth 0 frame 0) (nth 1 frame 0)) (nth 2 frame 0)) (nth 3 frame 0))
            (nth 4 frame 0)) (nth 5 frame 0)) (nth 6 frame 0)) (nth 7 frame 0))
            (nth 8 frame 0)) /\
  encode_move_command 200 0 500 0 =
    Ok [0xAA; 0x01; 0xC8; 0x00; 0x00; 0x00; 0xF4; 0x01; 0x00;
        Z.lxor (Z.lxor (Z.lxor (Z.lxor (Z.lxor (Z.lxor (Z.lxor (Z.lxor
          0xAA 0x01) 0xC8) 0x00) 0x00) 0x00) 0xF4) 0x01) 0x00].
Proof.
  split; [|reflexivity].
  intros dx dy duration_ms curve Hv.
  eexists. split; [apply encode_valid; assumption|].
  split; [reflexivity|]. split.
  - apply Forall_app. split; [apply payload_byte; assumption|].
    constructor; [|constructor].
    apply xor_fold_byte, payload_byte; assumption.
  - split; [reflexivity|].
    unfold payload, int16_le_bytes, uint16_le_bytes, xor_fold. simpl.
    reflexivity.
Qed.

Lemma encode_move_command_layout_witness :
  valid_command (-200) 0 500 3 /\
  exists frame,
    encode_move_command (-200) 0 500 3 = Ok frame /\
    List.length frame = 10%nat /\
    Forall is_byte frame /\
    firstn 9 frame = [0xAA; 0x01; 0x38; 0xFF; 0; 0; 0xF4; 0x01; 3] /\
    nth 9 frame 0 =
      Z.lxor (Z.lxor (Z.lxor (Z.lxor (Z.lxor (Z.lxor (Z.lxor (Z.lxor
        (nth 0 frame 0) (nth 1 frame 0)) (nth 2 frame 0)) (nth 3 frame 0))
        (nth 4 frame 0)) (nth 5 frame 0)) (nth 6 frame 0)) (nth 7 frame 0))
        (nth 8 frame 0).
Proof.
  assert (Hv : valid_command (-200) 0 500 3) by (unfold valid_command; lia).
  split; [exact Hv|].
  exact (proj1 encode_move_command_layout (-200) 0 500 3 Hv).
Defined.

(** C3.  On an input of exactly one byte [b], [decode_response] does not
    fail and returns [(success, code)] with [code = b] and [success] true
    iff [b = 0x00]; on an input of zero bytes, or of two or more, it raises
    the wrong-length [ProtocolError]; and it fails in no other case. *)
Theorem decode_response_spec :
  (forall b,
      exists success,
        decode_response [b] = Ok (success, b) /\
        (success = true <-> b = 0x00)) /\
  (forall response,
      List.length response <> 1%nat ->
      decode_response response =
        Raise (ProtocolError ("Expected 1-byte response, got "
                              ++ str (len response) ++ " bytes"))) /\
  (forall response e,
      decode_response response = Raise e -> List.length response <> 1%nat).
Proof.
  split; [|split].
  - intros b. exists (b =? 0). split; [reflexivity|]. apply Z.eqb_eq.
  - intros response Hl. unfold decode_response, len.
    destruct (Z.eqb_spec (Z.of_nat (List.length response)) 1); [lia|reflexivity].
  - intros response e. unfold decode_response, len.
    destruct (Z.eqb_spec (Z.of_nat (List.length response)) 1); simpl.
    + discriminate.
    + intros _. lia.
Qed.

Lemma decode_response_spec_witness :
  List.length [0x01; 0x00] <> 1%nat /\
  decode_response [0x01; 0x00] =
    Raise (ProtocolError "Expected 1-byte response, got 2 bytes").
Proof.
  assert (Hl : List.length [0x01; 0x00] <> 1%nat) by (simpl; lia).
  split; [exact Hl|].
  exact (proj1 (proj2 decode_response_spec) [0x01; 0x00] Hl).
Defined.

Lemma encode_dx_out dx dy duration_ms curve :
  ~ (-32768 <= dx <= 32767) ->
  encode_move_command dx dy duration_ms curve =
  Raise (ValueError ("dx must be in range [-32768, 32767], got " ++ str dx)).
Proof.
  intros H. unfold encode_move_command.
  rewrite (range_check_false _ _ _ H). reflexivity.
Qed.

Lemma encode_dy_out dx dy duration_ms curve :
  -32768 <= dx <= 32767 -> ~ (-32768 <= dy <= 32767) ->
  encode_move_command dx dy duration_ms curve =
  Raise (ValueError ("dy must be in range [-32768, 32767], got " ++ str dy)).
Proof.
  intros Hx H. unfold encode_move_command.
  rewrite (range_check _ _ _ Hx), (range_check_false _ _ _ H). reflexivity.
Qed.

Lemma encode_duration_out dx dy duration_ms curve :
  -32768 <= dx <= 32767 -> -32768 <= dy <= 32767 ->
  ~ (1 <= duration_ms <= 65535) ->
  encode_move_command dx dy duration_ms curve =
  Raise (ValueError ("duration_ms must be in range [1, 65535], got "
                     ++ str duration_ms)).
Proof.
  intros Hx Hy H. unfold encode_move_command.
  rewrite (range_check _ _ _ Hx), (range_check _ _ _ Hy),
    (range_check_false _ _ _ H). reflexivity.
Qed.

Lemma encode_curve_out dx dy duration_ms curve :
  -32768 <= dx <= 32767 -> -32768 <= dy <= 32767 ->
  1 <= duration_ms <= 65535 -> ~ (0 <= curve <= 3) ->
  encode_move_command dx dy duration_ms curve =
  Raise (ValueError ("curve must be in range [0, 3], got " ++ str curve)).
Proof.
  intros Hx Hy Hd H. unfold encode_move_command.
  rewrite (range_check _ _ _ Hx), (range_check _ _ _ Hy),
    (range_check _ _ _ Hd), (range_check_false _ _ _ H). reflexivity.
Qed.

Lemma valid_command_dec dx dy duration_ms curve :
  {valid_command dx dy duration_ms curve} +
  {~ valid_command dx dy duration_ms curve}.
Proof.
  unfold valid_command.
  destruct (Z_le_dec (-32768) dx), (Z_le_dec dx 32767),
    (Z_le_dec (-32768) dy), (Z_le_dec dy 32767),
    (Z_le_dec 1 duration_ms), (Z_le_dec duration_ms 65535),
    (Z_le_dec 0 curve), (Z_le_dec curve 3);
    solve [left; lia | right; lia].
Qed.

Lemma encode_invalid dx dy duration_ms curve :
  ~ valid_command dx dy duration_ms curve ->
  exists msg,
    encode_move_command dx dy duration_ms curve = Raise (ValueError msg).
Proof.
  intros H. unfold valid_command in H.
  destruct (Z_le_dec (-32768) dx), (Z_le_dec dx 32767);
    try (eexists; apply encode_dx_out; lia).
  destruct (Z_le_dec (-32768) dy), (Z_le_dec dy 32767);
    try (eexists; apply encode_dy_out; lia).
  destruct (Z_le_dec 1 duration_ms), (Z_le_dec duration_ms 65535);
    try (eexists; apply encode_duration_out; lia).
  eexists; apply encode_curve_out; lia.
Qed.

Lemma encode_ok_valid dx dy duration_ms curve frame :
  encode_move_command dx dy duration_ms curve = Ok frame ->
  valid_command dx dy duration_ms curve.
Proof.
  intros E. destruct (valid_command_dec dx dy duration_ms curve) as [H|H];
    [assumption|].
  destruct (encode_invalid _ _ _ _ H) as [msg E']. congruence.
Qed.

(** C4.  [encode_move_command] fails with a [ValueError] exactly when [dx]
    is outside [-32768, 32767], or [dy] is outside [-32768, 32767], or
    [duration_ms] is outside [1, 65535], or [curve] is outside [0, 3]; the
    first range violated (in that order) gives the reason, and the four
    reasons are distinct whatever the offending values.  The boundary values
    [dx = -32768], [dx = 32767], [dy = -32768], [dy = 32767],
    [duration_ms = 1], [duration_ms = 65535] encode; [dx = 32768],
    [duration_ms = 0], [duration_ms = 65536] and [curve = 4] fail. *)
Theorem encode_move_command_validation :
  (forall dx dy duration_ms curve,
      (exists msg,
          encode_move_command dx dy duration_ms curve = Raise (ValueError msg))
      <-> ~ valid_command dx dy duration_ms curve) /\
  (forall dx dy duration_ms curve,
      (exists frame, encode_move_command dx dy duration_ms curve = Ok frame)
      <-> valid_command dx dy duration_ms curve) /\
  (forall dx dy duration_ms curve,
      ~ (-32768 <= dx <= 32767) ->
      encode_move_command dx dy duration_ms curve =
      Raise (ValueError ("dx must be in range [-32768, 32767], got "
                         ++ str dx))) /\
  (forall dx dy duration_ms curve,
      -32768 <= dx <= 32767 -> ~ (-32768 <= dy <= 32767) ->
      encode_move_command dx dy duration_ms curve =
      Raise (ValueError ("dy must be in range [-32768, 32767], got "
                         ++ str dy))) /\
  (forall dx dy duration_ms curve,
      -32768 <= dx <= 32767 -> -32768 <= dy <= 32767 ->
      ~ (1 <= duration_ms <= 65535) ->
      encode_move_command dx dy duration_ms curve =
      Raise (ValueError ("duration_ms must be in range [1, 65535], got "
                         ++ str duration_ms))) /\
  (forall dx dy duration_ms curve,
      -32768 <= dx <= 32767 -> -32768 <= dy <= 32767 ->
      1 <= duration_ms <= 65535 -> ~ (0 <= curve <= 3) ->
      encode_move_command dx dy duration_ms curve =
      Raise (ValueError ("curve must be in range [0, 3], got "
                         ++ str curve))) /\
  (forall a b c d : string,
      let r_dx := ("dx must be in range [-32768, 32767], got " ++ a)%string in
      let r_dy := ("dy must be in range [-32768, 32767], got " ++ b)%string in
      let r_du := ("duration_ms must be in range [1, 65535], got " ++ c)%string in
      let r_cu := ("curve must be in range [0, 3], got " ++ d)%string in
      r_dx <> r_dy /\ r_dx <> r_du /\ r_dx <> r_cu /\
      r_dy <> r_du /\ r_dy <> r_cu /\ r_du <> r_cu) /\
  ((exists f, encode_move_command (-32768) 0 500 0 = Ok f) /\
   (exists f, encode_move_command 32767 0 500 0 = Ok f) /\
   (exists f, encode_move_command 0 (-32768) 500 0 = Ok f) /\
   (exists f, encode_move_command 0 32767 500 0 = Ok f) /\
   (exists f, encode_move_command 0 0 1 0 = Ok f) /\
   (exists f, encode_move_command 0 0 65535 0 = Ok f)) /\
  (encode_move_command 32768 0 500 0 =
     Raise (ValueError "dx must be in range [-32768, 32767], got 32768") /\
   encode_move_command 0 0 0 0 =
     Raise (ValueError "duration_ms must be in range [1, 65535], got 0") /\
   encode_move_command 0 0 65536 0 =
     Raise (ValueError "duration_ms must be in range [1, 65535], got 65536") /\
   encode_move_command 0 0 500 4 =
     Raise (ValueError "curve must be in range [0, 3], got 4")).
Proof.
  split; [|split].
  - intros dx dy duration_ms curve. split.
    + intros [msg E] Hv. rewrite (encode_valid _ _ _ _ Hv) in E. discriminate.
    + apply encode_invalid.
  - intros dx dy duration_ms curve. split.
    + intros [frame E]. eapply encode_ok_valid; eassumption.
    + intros Hv. eexists. apply encode_valid; assumption.
  - split; [exact encode_dx_out|]. split; [exact encode_dy_out|].
    split; [exact encode_duration_out|]. split; [exact encode_curve_out|].
    split; [|split].
    + intros a b c d. simpl. repeat split; discriminate.
    + repeat split; eexists; reflexivity.
    + repeat split; reflexivity.
Qed.

Lemma encode_move_command_validation_witness :
  ~ valid_command 0 40000 0 7 /\
  encode_move_command 0 40000 0 7 =
    Raise (ValueError "dy must be in range [-32768, 32767], got 40000").
Proof.
  split; [unfold valid_command; lia|].
  refine (proj1 (proj2 (proj2 (proj2 encode_move_command_validation)))
                0 40000 0 7 _ _); lia.
Defined.

(** C6.  Round trip: for every valid [(dx, dy, duration_ms, curve)], reading
    bytes 2-3 and 4-5 of the encoded frame as signed little-endian 16-bit,
    bytes 6-7 as unsigned little-endian 16-bit and byte 8 as it is gives
    back [dx], [dy], [duration_ms] and [curve], and the last byte of the
    frame is the XOR of its first nine. *)
Theorem encode_decode_header_roundtrip dx dy duration_ms curve :
  valid_command dx dy duration_ms curve ->
  exists frame,
    encode_move_command dx dy duration_ms curve = Ok frame /\
    decode_header frame = Some (dx, dy, duration_ms, curve) /\
    nth 9 frame 0 =
      Z.lxor (Z.lxor (Z.lxor (Z.lxor (Z.lxor (Z.lxor (Z.lxor (Z.lxor
        (nth 0 frame 0) (nth 1 frame 0)) (nth 2 frame 0)) (nth 3 frame 0))
        (nth 4 frame 0)) (nth 5 frame 0)) (nth 6 frame 0)) (nth 7 frame 0))
        (nth 8 frame 0).
Proof.
  intros Hv. eexists. split; [apply encode_valid; assumption|].
  destruct Hv as (Hx & Hy & Hd & Hc).
  split.
  - unfold payload, int16_le_bytes, uint16_le_bytes. simpl.
    rewrite !int16_le_roundtrip by assumption.
    rewrite uint16_le_roundtrip. reflexivity.
  - unfold payload, int16_le_bytes, uint16_le_bytes, xor_fold. simpl.
    reflexivity.
Qed.

Lemma encode_decode_header_roundtrip_witness :
  exists frame,
    encode_move_command (-300) (-150) 400 2 = Ok frame /\
    decode_header frame = Some (-300, -150, 400, 2) /\
    nth 9 frame 0 =
      Z.lxor (Z.lxor (Z.lxor (Z.lxor (Z.lxor (Z.lxor (Z.lxor (Z.lxor
        (nth 0 frame 0) (nth 1 frame 0)) (nth 2 frame 0)) (nth 3 frame 0))
        (nth 4 frame 0)) (nth 5 frame 0)) (nth 6 frame 0)) (nth 7 frame 0))
        (nth 8 frame 0).
Proof.
  apply (encode_decode_header_roundtrip (-300) (-150) 400 2).
  unfold valid_command. lia.
Defined.

(** C7.  Checksum sensitivity: a frame produced by [encode_move_command] is
    well-formed, and inverting any single bit of any one of its first nine
    bytes gives a frame that is not: its last byte no longer equals the XOR
    of its first nine. *)
Theorem checksum_detects_single_bit_flip dx dy duration_ms curve frame i k :
  encode_move_command dx dy duration_ms curve = Ok frame ->
  (i < 9)%nat -> 0 <= k < 8 ->
  well_formed frame = true /\
  well_formed (flip_bit i k frame) = false /\
  nth 9 (flip_bit i k frame) 0 <> xor_fold (firstn 9 (flip_bit i k frame)).
Proof.
  intros E Hi Hk.
  pose proof (encode_ok_valid _ _ _ _ _ E) as Hv.
  rewrite (encode_valid _ _ _ _ Hv) in E. injection E as <-.
  set (p := payload dx dy duration_ms curve).
  assert (Hlen : List.length p = 9%nat) by reflexivity.
  assert (Hneq : nth 9 (flip_bit i k (p ++ [xor_fold p])) 0 <>
                 xor_fold (firstn 9 (flip_bit i k (p ++ [xor_fold p])))).
  { rewrite nth_flip by lia. rewrite firstn_flip by assumption.
    change (firstn 9 (p ++ [xor_fold p])) with p.
    change (nth 9 (p ++ [xor_fold p]) 0) with (xor_fold p).
    unfold xor_fold at 2. rewrite xor_fold_flip by lia.
    fold (xor_fold p). intros C. symmetry in C. revert C.
    apply lxor_mask_neq. lia. }
  split; [|split].
  - unfold well_formed, len, PACKET_SIZE.
    change (firstn 9 (p ++ [xor_fold p])) with p.
    change (nth 9 (p ++ [xor_fold p]) 0) with (xor_fold p).
    apply andb_true_intro. split; [reflexivity | apply Z.eqb_refl].
  - unfold well_formed. apply andb_false_intro2.
    apply Z.eqb_neq. exact Hneq.
  - exact Hneq.
Qed.

Lemma checksum_detects_single_bit_flip_witness :
  well_formed [0xAA; 0x01; 0xC8; 0x00; 0x00; 0x00; 0xF4; 0x01; 0x00; 0x96]
    = true /\
  well_formed [0xAA; 0x01; 0xC8; 0x00; 0x00; 0x00; 0xF4; 0x21; 0x00; 0x96]
    = false /\
  0x96 <> xor_fold [0xAA; 0x01; 0xC8; 0x00; 0x00; 0x00; 0xF4; 0x21; 0x00].
Proof.
  refine (checksum_detects_single_bit_flip 200 0 500 0 _ 7 5 _ _ _);
    [reflexivity | lia | lia].
Defined.

(** * Properties of the floats *)

Section Floats.

Lemma digits2_pos_size p : digits2_pos p = Pos.size p.
Proof. induction p; simpl; congruence. Qed.

Lemma digits2_pos_iter_xO p k :
  digits2_pos (Pos.iter xO p k) = (digits2_pos p + k)%positive.
Proof.
  revert p. induction k using Pos.peano_ind; intros p.
  - simpl. lia.
  - rewrite Pos.iter_succ. simpl. rewrite IHk. lia.
Qed.

Lemma iter_xO_value p k : Z.pos (Pos.iter xO p k) = Z.pos p * 2 ^ Z.pos k.
Proof.
  revert p. induction k using Pos.peano_ind; intros p.
  - simpl. lia.
  - rewrite Pos.iter_succ.
    rewrite Pos2Z.inj_xO, IHk, Pos2Z.inj_succ, Z.pow_succ_r by lia. lia.
Qed.

Lemma digits2_pos_le p : Z.pos p < 2 ^ 53 -> Z.pos (digits2_pos p) <= 53.
Proof.
  intros H. rewrite digits2_pos_size.
  destruct (Z_le_gt_dec (Z.pos (Pos.size p)) 53) as [|Hgt];
    [assumption|exfalso].
  pose proof (Pos.size_le p) as Hs.
  assert (2 ^ 54 <= 2 ^ Z.pos (Pos.size p)) by (apply Z.pow_le_mono_r; lia).
  assert (Z.pos (2 ^ Pos.size p) = 2 ^ Z.pos (Pos.size p))
    by (rewrite Pos2Z.inj_pow; reflexivity).
  assert (Z.pos (2 ^ Pos.size p) <= Z.pos p~0) by exact Hs.
  change (2 ^ 54) with (2 * 2 ^ 53) in *. lia.
Qed.

(** A 53-digit mantissa with an exponent in range is its own rounding. *)
Lemma binary_round_aux_canonical s m e :
  Z.pos (digits2_pos m) = 53 -> -1074 <= e <= 971 ->
  binary_round_aux Float.prec Float.emax s (Z.pos m) e loc_Exact
  = S754_finite s m e.
Proof.
  intros Hd He.
  unfold binary_round_aux, shr_fexp, fexp, emin, Float.prec, Float.emax.
  cbn [shr_record_of_loc Zdigits2]. rewrite Hd.
  replace (Z.max (53 + e - 53) (3 - 1024 - 53) - e) with 0 by lia.
  cbn [shr shr_m loc_of_shr_record round_nearest_even Zdigits2]. rewrite Hd.
  replace (Z.max (53 + e - 53) (3 - 1024 - 53) - e) with 0 by lia.
  cbn [shr shr_m].
  replace (e <=? 1024 - 53) with true by (symmetry; apply Z.leb_le; lia).
  reflexivity.
Qed.

(** Below 2^53 the conversion of an int is exact. *)
Lemma of_int_small n :
  0 <= n < 2 ^ 53 ->
  exists x, Float.of_int n = Ok x /\ (Float.value x == inject_Z n)%Q.
Proof.
  intros [Hn Hlt]. destruct n as [|p|p]; [|clear Hn|lia].
  - exists Float.zero. split; reflexivity.
  - pose proof (digits2_pos_le p Hlt) as Hd.
    unfold Float.of_int, binary_normalize, binary_round, shl_align, fexp, emin.
    set (d := Z.pos (digits2_pos p)) in *.
    assert (Hd1 : 1 <= d) by (unfold d; lia).
    replace (Z.max (d + 0 - Float.prec) (3 - Float.emax - Float.prec) - 0)
      with (d - 53) by (unfold Float.prec, Float.emax; lia).
    replace (Z.max (d + 0 - Float.prec) (3 - Float.emax - Float.prec))
      with (d - 53) by (unfold Float.prec, Float.emax; lia).
    destruct (d - 53) as [|k|k] eqn:Ek; [| lia |].
    + rewrite binary_round_aux_canonical by (fold d; lia).
      eexists. split; [reflexivity|]. simpl. reflexivity.
    + rewrite binary_round_aux_canonical.
      * eexists. split; [reflexivity|].
        unfold Float.value. unfold Qeq. simpl Qnum. simpl Qden.
        rewrite iter_xO_value. rewrite Pos2Z.inj_pow. lia.
      * rewrite digits2_pos_iter_xO. fold d. lia.
      * lia.
Qed.

Lemma fits_float_small n : 0 <= n < 2 ^ 53 -> fits_float n.
Proof.
  intros H. destruct (of_int_small n H) as (x & Hx & _). exists x. exact Hx.
Qed.

(** Rounding keeps a positive sign. *)
Lemma binary_round_aux_sign m e l :
  Float.sign (binary_round_aux Float.prec Float.emax false m e l) = false.
Proof.
  unfold binary_round_aux.
  destruct (shr_fexp Float.prec Float.emax m e l) as [mrs' e'].
  destruct (shr_fexp Float.prec Float.emax
              (round_nearest_even (shr_m mrs') (loc_of_shr_record mrs')) e'
              loc_Exact) as [mrs'' e''].
  destruct (shr_m mrs''); [reflexivity| |reflexivity].
  destruct (e'' <=? Float.emax - Float.prec); reflexivity.
Qed.

Lemma of_int_sign n x :
  0 <= n -> Float.of_int n = Ok x -> Float.sign x = false.
Proof.
  intros Hn. unfold Float.of_int.
  destruct n as [|p|p]; [| |lia].
  - simpl. intros [= <-]. reflexivity.
  - unfold binary_normalize, binary_round.
    destruct (shl_align p 0 _) as [mz ez].
    pose proof (binary_round_aux_sign (Z.pos mz) ez loc_Exact) as Hs.
    destruct (binary_round_aux Float.prec Float.emax false (Z.pos mz) ez
                loc_Exact); intros [= <-]; exact Hs.
Qed.

Lemma div_thousand_sign x :
  Float.sign x = false -> Float.sign (Float.div x Float.thousand) = false.
Proof.
  intros Hs. destruct x as [s|s| |s m e]; simpl in Hs; try subst s;
    try reflexivity.
  unfold Float.div, SFdiv, Float.thousand.
  destruct (SFdiv_core_binary _ _ _ _ _ _) as [[mz ez] lz].
  apply binary_round_aux_sign.
Qed.

Lemma ltb_zero_sign x : Float.sign x = false -> Float.ltb x Float.zero = false.
Proof.
  intros Hs. destruct x as [s|s| |s m e]; simpl in Hs; try subst s; reflexivity.
Qed.

(** The timeout of a non-negative budget is not negative. *)
Lemma budget_timeout_not_negative n x :
  0 <= n -> Float.of_int n = Ok x ->
  Float.ltb (Float.div x Float.thousand) Float.zero = false.
Proof.
  intros Hn Hx. apply ltb_zero_sign, div_thousand_sign.
  eapply of_int_sign; eassumption.
Qed.

End Floats.

(** * Properties of the session *)

(** ** The retry loop *)

Section RetryLoop.

Variable command : list Z.   (* the frame being sent *)
Variable t : Float.t.        (* the read timeout of the call *)

(** One pass of the retry loop: the transport refuses a negative timeout
    after the frame has gone out; otherwise the byte read decides. *)
Lemma send_with_retry_step attempt rest w :
  send_with_retry command t (attempt :: rest) w =
  if Float.ltb t Float.zero
  then (Raise (ValueError_float "Not a valid timeout: " t),
        after_write command w)
  else
    let w1 := after_exchange command t w in
    match next_answer w with
    | [] => (Raise (TimeoutError t), w1)
    | b :: _ =>
        if b =? ACK_OK then (Ok tt, w1)
        else if (b =? NAK_CHECKSUM) && (attempt <? MAX_RETRIES (self w))
             then send_with_retry command t rest w1
             else (Raise (ProtocolError ("Movement failed: "
                                         ++ response_code_to_string b)), w1)
    end.
Proof.
  unfold after_exchange, after_write, next_answer.
  destruct w as [m [o tm ib wr dl pr]].
  cbn [send_with_retry].
  unfold mbind, on_serial, serial_set_timeout, serial_read, lift, get_self,
    raise, ret, Serial.set_timeout.
  cbn [self tty Serial.reset_input_buffer Serial.write Serial.flush
       Serial.is_open Serial.timeout Serial.in_buffer Serial.written
       Serial.deadlines Serial.peer app].
  destruct (Float.ltb t Float.zero); [reflexivity|].
  cbn [Serial.read self tty Serial.is_open Serial.timeout Serial.in_buffer
       Serial.written Serial.deadlines Serial.peer fst snd].
  destruct (hd [] pr) as [|b more]; simpl; [reflexivity|].
  destruct (b =? ACK_OK); [reflexivity|]. simpl.
  destruct ((b =? NAK_CHECKSUM) && (attempt <? MAX_RETRIES m)); reflexivity.
Qed.

Lemma after_exchange_self w : self (after_exchange command t w) = self w.
Proof. reflexivity. Qed.

Lemma after_exchange_writes w :
  writes (after_exchange command t w) = S (writes w).
Proof.
  unfold writes, after_exchange. simpl. rewrite length_app. simpl. lia.
Qed.

Lemma after_write_writes w : writes (after_write command w) = S (writes w).
Proof.
  unfold writes, after_write. simpl. rewrite length_app. simpl. lia.
Qed.

(** Case analysis on one pass of the loop when the timeout is accepted:
    silence, ACK_OK, a retry, a terminal negative answer. *)
Ltac one_pass Hpos w attempt :=
  rewrite send_with_retry_step, Hpos; cbv zeta;
  destruct (next_answer w) as [|? ?];
  [ | destruct (_ =? ACK_OK);
      [ | destruct ((_ =? NAK_CHECKSUM)
                    && (attempt <? MAX_RETRIES (self w))) ] ].

(** The loop only ever appends copies of the command to the log, at most one
    per attempt, and touches neither the session object nor the open flag;
    when the timeout is accepted, each write is followed by one read that
    waits under it. *)
Lemma send_with_retry_frame attempts : forall w,
  let w' := snd (send_with_retry command t attempts w) in
  self w' = self w /\
  Serial.is_open (tty w') = Serial.is_open (tty w) /\
  exists k, (k <= List.length attempts)%nat /\
            Serial.written (tty w') = Serial.written (tty w) ++ repeat command k /\
            (Float.ltb t Float.zero = false ->
             Serial.deadlines (tty w') = Serial.deadlines (tty w) ++ repeat t k).
Proof.
  destruct (Float.ltb t Float.zero) eqn:Hneg.
  - intros w. destruct attempts as [|attempt rest].
    + simpl. repeat split. exists 0%nat. simpl. rewrite app_nil_r.
      split; [lia|]. split; [reflexivity | discriminate].
    + rewrite send_with_retry_step, Hneg. simpl. repeat split.
      exists 1%nat. simpl. split; [lia|]. split; [reflexivity | discriminate].
  - induction attempts as [|attempt rest IH]; intros w.
    + simpl. repeat split. exists 0%nat. simpl. rewrite !app_nil_r. auto.
    + assert (Hone : exists k, (k <= List.length (attempt :: rest))%nat /\
                Serial.written (tty (after_exchange command t w)) =
                Serial.written (tty w) ++ repeat command k /\
                (false = false ->
                 Serial.deadlines (tty (after_exchange command t w)) =
                 Serial.deadlines (tty w) ++ repeat t k)).
      { exists 1%nat. simpl. split; [lia|]. split; reflexivity. }
      one_pass Hneg w attempt; try (simpl; auto; fail).
      destruct (IH (after_exchange command t w)) as (Hs & Ho & k & Hk & Hw & Hd).
      split; [rewrite Hs; reflexivity|]. split; [rewrite Ho; reflexivity|].
      exists (S k). split; [simpl; lia|]. split.
      * rewrite Hw. simpl Serial.written. rewrite <- app_assoc. reflexivity.
      * intros _. rewrite (Hd eq_refl). simpl Serial.deadlines.
        rewrite <- app_assoc. reflexivity.
Qed.

(** While the peer keeps answering NAK_CHECKSUM and attempts remain, the loop
    resends: after the answers [naks] the loop stands at attempt
    [k + length naks] with one copy of the command logged per answer. *)
Lemma send_with_retry_naks naks : forall k n w tail,
  Float.ltb t Float.zero = false ->
  Forall is_nak_checksum naks ->
  Z.of_nat (k + List.length naks) <= MAX_RETRIES (self w) ->
  (List.length naks <= n)%nat ->
  Serial.peer (tty w) = naks ++ tail ->
  exists wj,
    self wj = self w /\
    Serial.is_open (tty wj) = Serial.is_open (tty w) /\
    Serial.written (tty wj) =
      Serial.written (tty w) ++ repeat command (List.length naks) /\
    Serial.peer (tty wj) = tail /\
    send_with_retry command t (map Z.of_nat (seq k n)) w =
    send_with_retry command t
      (map Z.of_nat (seq (k + List.length naks) (n - List.length naks))) wj.
Proof.
  intros k n w tail Hpos. revert k n w tail.
  induction naks as [|a naks IH]; intros k n w tail Hn Hk Hl Hp.
  - exists w. simpl. rewrite app_nil_r, Nat.add_0_r, Nat.sub_0_r. auto.
  - inversion Hn as [|? ? Ha Hn']; subst.
    destruct a as [|b more]; [discriminate|].
    unfold is_nak_checksum in Ha. simpl in Ha. injection Ha as ->.
    destruct n as [|n]; [simpl in Hl; lia|].
    simpl in Hk, Hl.
    destruct (IH (S k) n (after_exchange command t w) tail Hn')
      as (wj & Hs & Ho & Hw & Hpj & Hrun).
    { rewrite after_exchange_self. lia. }
    { lia. }
    { simpl. rewrite Hp. reflexivity. }
    exists wj. split; [rewrite Hs; reflexivity|].
    split; [rewrite Ho; reflexivity|].
    split.
    { rewrite Hw. simpl Serial.written. rewrite <- app_assoc. reflexivity. }
    split; [exact Hpj|].
    simpl seq. simpl map. rewrite send_with_retry_step, Hpos. cbv zeta.
    unfold next_answer. rewrite Hp. simpl hd.
    change (NAK_CHECKSUM =? ACK_OK) with false. cbv iota.
    rewrite Z.eqb_refl.
    replace (Z.of_nat k <? MAX_RETRIES (self w)) with true
      by (symmetry; apply Z.ltb_lt; lia).
    simpl andb. cbv iota. rewrite Hrun.
    replace (k + S (List.length naks))%nat with (S k + List.length naks)%nat
      by lia.
    reflexivity.
Qed.

(** The loop goes on to another pass only on NAK_CHECKSUM with attempts
    remaining. *)
Lemma send_with_retry_repeats attempt rest w :
  (writes (snd (send_with_retry command t (attempt :: rest) w))
   > writes w + 1)%nat ->
  hd_error (next_answer w) = Some NAK_CHECKSUM /\
  attempt < MAX_RETRIES (self w).
Proof.
  rewrite send_with_retry_step. cbv zeta.
  pose proof (after_exchange_writes w) as Hw.
  pose proof (after_write_writes w) as Hw'.
  destruct (Float.ltb t Float.zero); [simpl; lia|].
  destruct (next_answer w) as [|b more]; [simpl; lia|].
  destruct (b =? ACK_OK); [simpl; lia|].
  destruct (Z.eqb_spec b NAK_CHECKSUM) as [->|]; [|simpl; lia].
  destruct (Z.ltb_spec attempt (MAX_RETRIES (self w))); [|simpl; lia].
  intros _. split; [reflexivity|assumption].
Qed.

(** What the loop raises, with its reason. *)
Lemma send_with_retry_raises_reason attempts : forall w e,
  fst (send_with_retry command t attempts w) = Raise e ->
  (Float.ltb t Float.zero = true /\
   e = ValueError_float "Not a valid timeout: " t) \/
  (Float.ltb t Float.zero = false /\ e = TimeoutError t) \/
  (Float.ltb t Float.zero = false /\
   exists b, b <> ACK_OK /\
             e = ProtocolError ("Movement failed: " ++ response_code_to_string b)).
Proof.
  destruct (Float.ltb t Float.zero) eqn:Hneg.
  - intros w e. destruct attempts as [|attempt rest]; [simpl; discriminate|].
    rewrite send_with_retry_step, Hneg. simpl. intros [= <-]. left. auto.
  - induction attempts as [|attempt rest IH]; intros w e;
      [simpl; discriminate|].
    rewrite send_with_retry_step, Hneg. cbv zeta.
    destruct (next_answer w) as [|b more].
    + simpl. intros [= <-]. right. left. auto.
    + destruct (Z.eqb_spec b ACK_OK) as [->|Hb]; [simpl; discriminate|].
      destruct ((b =? NAK_CHECKSUM) && (attempt <? MAX_RETRIES (self w))).
      * apply IH.
      * simpl. intros [= <-]. right. right. split; [reflexivity|].
        exists b. auto.
Qed.

(** A refused timeout ends the call after the first frame. *)
Lemma send_with_retry_refused attempt rest w :
  Float.ltb t Float.zero = true ->
  send_with_retry command t (attempt :: rest) w =
  (Raise (ValueError_float "Not a valid timeout: " t), after_write command w).
Proof. intros H. rewrite send_with_retry_step, H. reflexivity. Qed.


(** A run of the loop over the attempts [k, k+1, ..., MAX_RETRIES] that
    returns normally has read ACK_OK after NAK_CHECKSUM answers only. *)
Lemma send_with_retry_ok : forall n k w,
  Z.of_nat (k + n) = MAX_RETRIES (self w) + 1 ->
  (0 < n)%nat ->
  fst (send_with_retry command t (map Z.of_nat (seq k n)) w) = Ok tt ->
  exists naks more tail,
    Serial.peer (tty w) = naks ++ (ACK_OK :: more) :: tail /\
    Forall is_nak_checksum naks /\
    (List.length naks < n)%nat /\
    writes (snd (send_with_retry command t (map Z.of_nat (seq k n)) w)) =
      (writes w + List.length naks + 1)%nat.
Proof.
  induction n as [|n IH]; intros k w Hkn Hn; [lia|].
  simpl seq. simpl map. rewrite send_with_retry_step. cbv zeta.
  destruct (Float.ltb t Float.zero); [simpl; discriminate|].
  unfold next_answer.
  destruct (Serial.peer (tty w)) as [|answer tail] eqn:Hp;
    [simpl; discriminate|].
  simpl hd. destruct answer as [|b more]; [simpl; discriminate|].
  destruct (Z.eqb_spec b ACK_OK) as [->|Hb].
  - intros _. exists [], more, tail. simpl.
    rewrite after_exchange_writes. repeat split; [constructor | lia | lia].
  - destruct (Z.eqb_spec b NAK_CHECKSUM) as [->|Hb1]; [|simpl; discriminate].
    destruct (Z.ltb_spec (Z.of_nat k) (MAX_RETRIES (self w))) as [Hlt|Hge];
      [|simpl; discriminate].
    simpl andb. cbv iota. intros Hok.
    destruct (IH (S k) (after_exchange command t w)) as
      (naks & more' & tail' & Hp' & Hn' & Hl & Hw);
      [rewrite after_exchange_self; lia | lia | exact Hok |].
    exists ((NAK_CHECKSUM :: more) :: naks), more', tail'.
    simpl in Hp'. rewrite Hp in Hp'. simpl in Hp'.
    split; [simpl; rewrite Hp'; reflexivity|].
    split; [constructor; [reflexivity | exact Hn']|].
    split; [simpl; lia|].
    rewrite Hw, after_exchange_writes. simpl. lia.
Qed.

(** A pass of the loop does not look at what the input buffer held. *)
Lemma send_with_retry_stale attempt rest stale w :
  send_with_retry command t (attempt :: rest) (with_in_buffer stale w) =
  send_with_retry command t (attempt :: rest) w.
Proof. rewrite !send_with_retry_step. reflexivity. Qed.

End RetryLoop.

(** ** [move] *)

Lemma range_length n : List.length (range n) = Z.to_nat n.
Proof. unfold range. rewrite length_map, length_seq. reflexivity. Qed.

Lemma range_nonempty n : 0 <= n -> range (n + 1) <> [].
Proof.
  intros H. unfold range.
  replace (Z.to_nat (n + 1)) with (S (Z.to_nat n)) by lia.
  simpl. discriminate.
Qed.

Lemma encode_raises dx dy duration_ms curve e :
  encode_move_command dx dy duration_ms curve = Raise e ->
  exists msg, e = ValueError msg.
Proof.
  intros E. destruct (valid_command_dec dx dy duration_ms curve) as [H|H].
  - rewrite (encode_valid _ _ _ _ H) in E. discriminate.
  - destruct (encode_invalid _ _ _ _ H) as [msg E']. exists msg. congruence.
Qed.

(** The timeout of a budget that is not negative and converts to a float. *)
Lemma timeout_seconds_of_ok w duration_ms :
  0 <= budget_ms w duration_ms -> fits_float (budget_ms w duration_ms) ->
  exists budget,
    Float.of_int (budget_ms w duration_ms) = Ok budget /\
    timeout_seconds_of w duration_ms = Ok (Float.div budget Float.thousand) /\
    Float.ltb (Float.div budget Float.thousand) Float.zero = false.
Proof.
  intros Hn [x Hx]. exists x. split; [exact Hx|].
  unfold timeout_seconds_of. rewrite Hx. split; [reflexivity|].
  eapply budget_timeout_not_negative; eassumption.
Qed.

(** The only failure of the timeout computation is the conversion's. *)
Lemma timeout_seconds_of_raises w duration_ms e :
  timeout_seconds_of w duration_ms = Raise e ->
  e = OverflowError "int too large to convert to float" /\
  ~ fits_float (budget_ms w duration_ms).
Proof.
  unfold timeout_seconds_of, fits_float.
  destruct (Float.of_int (budget_ms w duration_ms)) as [x|e'] eqn:E;
    [discriminate|].
  intros [= <-]. split.
  - unfold Float.of_int in E.
    destruct (binary_normalize _ _ _ _ _); try discriminate.
    injection E as <-. reflexivity.
  - intros [x Hx]. discriminate.
Qed.

(** A timeout the transport refuses comes from a negative budget. *)
Lemma timeout_refused_negative w duration_ms t :
  timeout_seconds_of w duration_ms = Ok t ->
  Float.ltb t Float.zero = true ->
  budget_ms w duration_ms < 0.
Proof.
  unfold timeout_seconds_of.
  destruct (Float.of_int (budget_ms w duration_ms)) as [x|e] eqn:E;
    [|discriminate].
  intros [= <-] Hneg.
  destruct (Z_lt_ge_dec (budget_ms w duration_ms) 0) as [|Hge]; [assumption|].
  rewrite (budget_timeout_not_negative _ _ (Z.ge_le _ _ Hge) E) in Hneg.
  discriminate.
Qed.

Lemma connected_dec w : {connected w = true} + {connected w = false}.
Proof. destruct (connected w); auto. Qed.

(** [move] on a session that is not connected. *)
Lemma move_not_connected dx dy duration_ms v w :
  connected w = false ->
  move dx dy duration_ms v w =
  (Raise (ConnectionError "Not connected to Arduino"), w).
Proof.
  unfold connected, move, mbind, _ensure_connected. intros H.
  destruct (_serial (self w)); [|reflexivity].
  rewrite H. reflexivity.
Qed.

(** [move] on a connected session, once the curve argument is resolved. *)
Lemma move_connected dx dy duration_ms v w :
  connected w = true ->
  move dx dy duration_ms v w =
  match curve_of v with
  | None => (Raise (ValueError ("Invalid curve value: " ++ pyformat v)), w)
  | Some c =>
      match encode_move_command dx dy duration_ms (Curves.int c) with
      | Raise e => (Raise e, w)
      | Ok command =>
          match timeout_seconds_of w duration_ms with
          | Raise e => (Raise e, w)
          | Ok t =>
              send_with_retry command t (range (MAX_RETRIES (self w) + 1)) w
          end
      end
  end.
Proof.
  unfold connected, move, mbind, _ensure_connected, curve_of,
    timeout_seconds_of, budget_ms. intros H.
  destruct (_serial (self w)); [|discriminate].
  rewrite H. simpl.
  assert (Hrest : forall c,
    (let (r, w') :=
       lift (encode_move_command dx dy duration_ms (Curves.int c)) w in
     match r with
     | Ok a =>
         (let (r0, w'0) := get_self w' in
          match r0 with
          | Ok a0 =>
              (let (r1, w'1) :=
                 lift (Float.of_int (duration_ms + timeout_buffer_ms a0)) w'0 in
               match r1 with
               | Ok a1 =>
                   send_with_retry a (Float.div a1 Float.thousand)
                     (range (MAX_RETRIES a0 + 1)) w'1
               | Raise e => (Raise e, w'1)
               end)
          | Raise e => (Raise e, w'0)
          end)
     | Raise e => (Raise e, w')
     end) =
    match encode_move_command dx dy duration_ms (Curves.int c) with
    | Ok command =>
        match
          match Float.of_int (duration_ms + timeout_buffer_ms (self w)) with
          | Ok budget => Ok (Float.div budget Float.thousand)
          | Raise e => Raise e
          end
        with
        | Ok t => send_with_retry command t (range (MAX_RETRIES (self w) + 1)) w
        | Raise e => (Raise e, w)
        end
    | Raise e => (Raise e, w)
    end).
  { intros c. unfold lift, get_self.
    destruct (encode_move_command dx dy duration_ms (Curves.int c));
      [|reflexivity].
    destruct (Float.of_int (duration_ms + timeout_buffer_ms (self w)));
      reflexivity. }
  destruct (as_Curve v) as [c|].
  - unfold ret. apply Hrest.
  - destruct (Curve_call v) as [c|]; [|reflexivity].
    unfold ret. apply Hrest.
Qed.

(** [move] never changes the session object or the open flag of the
    transport, and appends only copies of one frame to the log. *)
Lemma move_frame dx dy duration_ms v w :
  let w' := snd (move dx dy duration_ms v w) in
  self w' = self w /\
  Serial.is_open (tty w') = Serial.is_open (tty w) /\
  exists k, (k <= Z.to_nat (MAX_RETRIES (self w) + 1))%nat /\
    forall command,
      (forall c, curve_of v = Some c ->
                 encode_move_command dx dy duration_ms (Curves.int c)
                 = Ok command) ->
      Serial.written (tty w') = Serial.written (tty w) ++ repeat command k.
Proof.
  assert (Hzero : forall w0 : World,
             self w0 = self w0 /\
             Serial.is_open (tty w0) = Serial.is_open (tty w0) /\
             exists k, (k <= Z.to_nat (MAX_RETRIES (self w0) + 1))%nat /\
               forall command : list Z,
                 (forall c, curve_of v = Some c ->
                            encode_move_command dx dy duration_ms (Curves.int c)
                            = Ok command) ->
                 Serial.written (tty w0) =
                 Serial.written (tty w0) ++ repeat command k).
  { intros w0. repeat split. exists 0%nat. split; [lia|].
    intros. simpl. rewrite app_nil_r. reflexivity. }
  destruct (connected_dec w) as [H|H].
  - rewrite (move_connected _ _ _ _ _ H).
    destruct (curve_of v) as [c|]; [|apply Hzero].
    destruct (encode_move_command dx dy duration_ms (int c)) as [command|e] eqn:E;
      [|apply Hzero].
    destruct (timeout_seconds_of w duration_ms) as [t|e]; [|apply Hzero].
    destruct (send_with_retry_frame command t
                (range (MAX_RETRIES (self w) + 1)) w)
      as (Hs & Ho & k & Hk & Hw & _).
    split; [exact Hs|]. split; [exact Ho|].
    exists k. split; [rewrite range_length in Hk; exact Hk|].
    intros command' Hc. specialize (Hc c eq_refl).
    assert (command' = command) by congruence. subst. exact Hw.
  - rewrite (move_not_connected _ _ _ _ _ H). apply Hzero.
Qed.

Lemma move_connected_preserved dx dy duration_ms v w :
  connected (snd (move dx dy duration_ms v w)) = connected w.
Proof.
  destruct (move_frame dx dy duration_ms v w) as (Hs & Ho & _).
  unfold connected. rewrite Hs, Ho. reflexivity.
Qed.

(** [move] with a resolvable curve, a valid command and a budget the
    transport accepts, against a peer that first answers NAK_CHECKSUM
    [length naks] times (no more than the retry budget): the call stands at
    a pass of the loop with that many frames logged. *)
Lemma move_after_naks w dx dy duration_ms v c naks tail :
  connected w = true ->
  curve_of v = Some c ->
  valid_command dx dy duration_ms (Curves.int c) ->
  0 <= budget_ms w duration_ms ->
  fits_float (budget_ms w duration_ms) ->
  Forall is_nak_checksum naks ->
  Z.of_nat (List.length naks) <= MAX_RETRIES (self w) ->
  Serial.peer (tty w) = naks ++ tail ->
  exists wj rest t,
    timeout_seconds_of w duration_ms = Ok t /\
    Float.ltb t Float.zero = false /\
    self wj = self w /\
    writes wj = (writes w + List.length naks)%nat /\
    next_answer wj = hd [] tail /\
    move dx dy duration_ms v w =
    send_with_retry
      (payload dx dy duration_ms (Curves.int c)
       ++ [xor_fold (payload dx dy duration_ms (Curves.int c))])
      t (Z.of_nat (List.length naks) :: rest) wj.
Proof.
  intros Hc Hv Hvalid Hb Hfit Hn Hk Hp.
  destruct (timeout_seconds_of_ok w duration_ms Hb Hfit) as (x & _ & Ht & Hpos).
  rewrite (move_connected _ _ _ _ _ Hc), Hv, (encode_valid _ _ _ _ Hvalid), Ht.
  set (command := payload dx dy duration_ms (int c) ++ _).
  set (t := Float.div x Float.thousand) in *.
  destruct (send_with_retry_naks command t naks 0
              (Z.to_nat (MAX_RETRIES (self w) + 1)) w tail Hpos Hn)
    as (wj & Hs & Ho & Hw & Hpj & Hrun); [simpl; lia | lia | exact Hp |].
  unfold range. rewrite Hrun. simpl (0 + _)%nat.
  destruct (Z.to_nat (MAX_RETRIES (self w) + 1) - List.length naks)%nat
    as [|n'] eqn:En; [lia|].
  exists wj, (map Z.of_nat (seq (S (List.length naks)) n')), t.
  split; [reflexivity|]. split; [exact Hpos|].
  split; [exact Hs|]. split.
  { unfold writes. rewrite Hw, length_app, repeat_length. reflexivity. }
  split; [unfold next_answer; rewrite Hpj; reflexivity|].
  reflexivity.
Qed.

(** C2.  In every execution of [move] the exchange is attempted at most
    [MAX_RETRIES + 1] times (a session is built with [MAX_RETRIES = 1], so at
    most 2 writes).  A pass of the loop is followed by another only when the
    byte read is NAK_CHECKSUM and attempts remain.  After any number of
    NAK_CHECKSUM answers within the budget, the next answered byte decides:
    ACK_OK returns, and any other byte that is not NAK_CHECKSUM - or
    NAK_CHECKSUM on the last attempt - raises [ProtocolError] at once; the
    number of writes is the number of NAK_CHECKSUM answers plus one.  (This
    for a wait budget the transport accepts: not negative, and within the
    range of a float.)  With the default budget: NAK_CHECKSUM then ACK_OK
    gives 2 writes and success, NAK_CHECKSUM twice gives 2 writes and a
    [ProtocolError], NAK_INVALID gives 1 write and a [ProtocolError]. *)
Theorem move_retry_discipline :
  (forall w dx dy duration_ms v,
      (writes w <= writes (snd (move dx dy duration_ms v w))
       <= writes w + Z.to_nat (MAX_RETRIES (self w) + 1))%nat) /\
  (forall port baudrate buffer env,
      MAX_RETRIES (self (snd (__init__ port baudrate buffer env))) = 1) /\
  (forall command t attempt rest w,
      (writes (snd (send_with_retry command t (attempt :: rest) w))
       > writes w + 1)%nat ->
      hd_error (next_answer w) = Some NAK_CHECKSUM /\
      attempt < MAX_RETRIES (self w)) /\
  (forall w dx dy duration_ms v c naks b more tail,
      connected w = true ->
      curve_of v = Some c ->
      valid_command dx dy duration_ms (Curves.int c) ->
      0 <= duration_ms + timeout_buffer_ms (self w) ->
      fits_float (duration_ms + timeout_buffer_ms (self w)) ->
      Forall is_nak_checksum naks ->
      Z.of_nat (List.length naks) <= MAX_RETRIES (self w) ->
      Serial.peer (tty w) = naks ++ (b :: more) :: tail ->
      let r := fst (move dx dy duration_ms v w) in
      let w' := snd (move dx dy duration_ms v w) in
      (b = ACK_OK ->
       r = Ok tt /\ writes w' = (writes w + List.length naks + 1)%nat) /\
      (b <> ACK_OK ->
       b <> NAK_CHECKSUM \/ Z.of_nat (List.length naks) = MAX_RETRIES (self w) ->
       r = Raise (ProtocolError ("Movement failed: "
                                 ++ response_code_to_string b)) /\
       writes w' = (writes w + List.length naks + 1)%nat)) /\
  (let run := move 200 0 500 (PyCurve LINEAR)
                (session_on [[NAK_CHECKSUM]; [ACK_OK]]) in
   fst run = Ok tt /\ writes (snd run) = 2%nat) /\
  (let run := move 200 0 500 (PyCurve LINEAR)
                (session_on [[NAK_CHECKSUM]; [NAK_CHECKSUM]; [ACK_OK]]) in
   fst run = Raise (ProtocolError "Movement failed: Checksum error") /\
   writes (snd run) = 2%nat) /\
  (let run := move 200 0 500 (PyCurve LINEAR)
                (session_on [[NAK_INVALID]; [ACK_OK]]) in
   fst run = Raise (ProtocolError "Movement failed: Invalid command") /\
   writes (snd run) = 1%nat).
Proof.
  split; [|split; [|split; [|split]]].
  - intros w dx dy duration_ms v.
    destruct (move_frame dx dy duration_ms v w) as (_ & _ & k & Hk & Hw).
    destruct (curve_of v) as [c|] eqn:Ec.
    + destruct (encode_move_command dx dy duration_ms (Curves.int c))
        as [command|e] eqn:E.
      * unfold writes. rewrite (Hw command).
        -- rewrite length_app, repeat_length. lia.
        -- intros c' Hc'. congruence.
      * destruct (connected_dec w) as [H|H].
        -- rewrite (move_connected _ _ _ _ _ H), Ec, E. simpl. lia.
        -- rewrite (move_not_connected _ _ _ _ _ H). simpl. lia.
    + unfold writes. rewrite (Hw []).
      * rewrite length_app, repeat_length. lia.
      * intros c' Hc'. discriminate.
  - intros port baudrate buffer env. unfold __init__, _connect, Serial.new.
    cbn [Client.baudrate].
    destruct (baudrate <? 0); [reflexivity|].
    destruct env as [reason|answers|e]; try reflexivity.
    destruct e; reflexivity.
  - exact send_with_retry_repeats.
  - intros w dx dy duration_ms v c naks b more tail Hc Hv Hvalid Hb Hfit Hn Hk Hp.
    destruct (move_after_naks w dx dy duration_ms v c naks _
                Hc Hv Hvalid Hb Hfit Hn Hk Hp)
      as (wj & rest & t & _ & Hpos & Hs & Hw & Ha & Hrun).
    cbv zeta. rewrite Hrun, send_with_retry_step, Hpos. cbv zeta.
    rewrite Ha. simpl hd. cbv iota.
    pose proof (after_exchange_writes
                  (payload dx dy duration_ms (Curves.int c)
                   ++ [xor_fold (payload dx dy duration_ms (Curves.int c))])
                  t wj) as Hw1.
    destruct (Z.eqb_spec b ACK_OK) as [Hb0|Hb0].
    + cbn [fst snd]. split; [intros _; split; [reflexivity|lia]|].
      intros C; contradiction.
    + split; [intros C; contradiction|]. intros _ Hstop.
      replace ((b =? NAK_CHECKSUM)
               && (Z.of_nat (List.length naks) <? MAX_RETRIES (self wj)))
        with false.
      * cbn [fst snd]. split; [reflexivity|lia].
      * symmetry. rewrite Hs. destruct Hstop as [Hne|He].
        -- apply andb_false_intro1. apply Z.eqb_neq. exact Hne.
        -- apply andb_false_intro2. apply Z.ltb_ge. lia.
  - repeat split; reflexivity.
Qed.

Lemma move_retry_discipline_witness :
  connected (session_on [[NAK_CHECKSUM; 9]; [NAK_INTERRUPTED]]) = true /\
  fst (move 200 0 500 (PyInt 0) (session_on [[NAK_CHECKSUM; 9]; [NAK_INTERRUPTED]]))
  = Raise (ProtocolError "Movement failed: Movement interrupted by new command") /\
  writes (snd (move 200 0 500 (PyInt 0)
                 (session_on [[NAK_CHECKSUM; 9]; [NAK_INTERRUPTED]]))) = 2%nat.
Proof.
  split; [reflexivity|].
  destruct move_retry_discipline as (_ & _ & _ & H & _).
  refine (proj2 (H (session_on [[NAK_CHECKSUM; 9]; [NAK_INTERRUPTED]])
                   200 0 500 (PyInt 0) LINEAR [[NAK_CHECKSUM; 9]]
                   NAK_INTERRUPTED [] [] _ _ _ _ _ _ _ _) _ _).
  - reflexivity.
  - reflexivity.
  - unfold valid_command. simpl. lia.
  - apply Z.leb_le. reflexivity.
  - eexists. reflexivity.
  - repeat constructor.
  - apply Z.leb_le. reflexivity.
  - reflexivity.
  - discriminate.
  - left. discriminate.
Defined.

(** A pass of the loop under an accepted timeout writes at least one
    frame. *)
Lemma send_with_retry_writes command t attempt rest w :
  (writes w < writes (snd (send_with_retry command t (attempt :: rest) w)))%nat.
Proof.
  rewrite send_with_retry_step. cbv zeta.
  pose proof (after_exchange_writes command t w) as Hw.
  pose proof (after_write_writes command w) as Hw'.
  destruct (Float.ltb t Float.zero); [simpl; lia|].
  destruct (next_answer w) as [|b more]; [simpl; lia|].
  destruct (b =? ACK_OK); [simpl; lia|].
  destruct ((b =? NAK_CHECKSUM) && (attempt <? MAX_RETRIES (self w)));
    [|simpl; lia].
  destruct (send_with_retry_frame command t rest (after_exchange command t w))
    as (_ & _ & k & _ & Hk & _).
  unfold writes in *. rewrite Hk, length_app. lia.
Qed.





(** On a connected session [move] raises no [ConnectionError]. *)
Lemma move_connected_raises w dx dy duration_ms v e :
  connected w = true ->
  fst (move dx dy duration_ms v w) = Raise e ->
  forall msg, e <> ConnectionError msg.
Proof.
  intros Hc. rewrite (move_connected _ _ _ _ _ Hc).
  destruct (curve_of v) as [c|].
  - destruct (encode_move_command dx dy duration_ms (Curves.int c))
      as [command|e'] eqn:E.
    + destruct (timeout_seconds_of w duration_ms) as [t|e'] eqn:Et.
      * intros Hr msg. apply send_with_retry_raises_reason in Hr.
        destruct Hr as [(_ & ->) | [(_ & ->) | (_ & b & _ & ->)]]; discriminate.
      * simpl. intros Hr msg. injection Hr as <-.
        destruct (timeout_seconds_of_raises _ _ _ Et) as (-> & _).
        discriminate.
    + simpl. intros Hr msg. injection Hr as <-.
      destruct (encode_raises _ _ _ _ _ E) as [m ->]. discriminate.
  - simpl. intros Hr msg. injection Hr as <-. discriminate.
Qed.

(** C8.  Atomicity of errors in [move].  On a connected session an
    out-of-range [dx], [dy] or [duration_ms] and an invalid curve value make
    [move] raise a [ValueError] with nothing written and the world unchanged.
    Every error of class [ValueError] that [move] raises is either such a
    validation error, with the world unchanged, or the transport's refusal
    of a negative timeout, which needs a negative budget
    [duration_ms + timeout_buffer_ms] and comes after the frame has been
    written once; so for a budget that is not negative a [ValueError] leaves
    the world as it was.  [move] never changes the session object nor the
    open flag of the transport, so after any error other than
    [ConnectionError] (a [TimeoutError] or a [ProtocolError] in particular)
    the session is still connected: a following [move] with a valid command
    and a budget the transport accepts passes the connection check, writes
    its frame and, if the peer answers ACK_OK, succeeds.  [move] raises
    [ConnectionError] exactly on a session that was not connected
    beforehand. *)
Theorem move_error_atomicity :
  (forall w dx dy duration_ms v,
      connected w = true ->
      curve_of v = None \/
      (exists c, curve_of v = Some c /\
                 ~ valid_command dx dy duration_ms (Curves.int c)) ->
      exists msg, move dx dy duration_ms v w = (Raise (ValueError msg), w)) /\
  (forall w dx dy duration_ms v e,
      fst (move dx dy duration_ms v w) = Raise e ->
      is_ValueError e = true ->
      ((exists msg, e = ValueError msg) /\
       snd (move dx dy duration_ms v w) = w /\
       (curve_of v = None \/
        exists c, curve_of v = Some c /\
                  ~ valid_command dx dy duration_ms (Curves.int c))) \/
      (exists t,
          e = ValueError_float "Not a valid timeout: " t /\
          timeout_seconds_of w duration_ms = Ok t /\
          duration_ms + timeout_buffer_ms (self w) < 0 /\
          writes (snd (move dx dy duration_ms v w)) = (writes w + 1)%nat)) /\
  (forall w dx dy duration_ms v e,
      fst (move dx dy duration_ms v w) = Raise e ->
      is_ValueError e = true ->
      0 <= duration_ms + timeout_buffer_ms (self w) ->
      snd (move dx dy duration_ms v w) = w) /\
  (forall w dx dy duration_ms v,
      let w' := snd (move dx dy duration_ms v w) in
      self w' = self w /\
      Serial.is_open (tty w') = Serial.is_open (tty w) /\
      connected w' = connected w) /\
  (forall w dx dy duration_ms v e,
      fst (move dx dy duration_ms v w) = Raise e ->
      (forall msg, e <> ConnectionError msg) ->
      let w' := snd (move dx dy duration_ms v w) in
      connected w' = true /\
      _ensure_connected w' = (Ok tt, w') /\
      forall dx2 dy2 duration2 v2 c2,
        curve_of v2 = Some c2 ->
        valid_command dx2 dy2 duration2 (Curves.int c2) ->
        0 <= MAX_RETRIES (self w) ->
        0 <= duration2 + timeout_buffer_ms (self w) ->
        fits_float (duration2 + timeout_buffer_ms (self w)) ->
        (writes w' < writes (snd (move dx2 dy2 duration2 v2 w')))%nat /\
        (hd_error (next_answer w') = Some ACK_OK ->
         fst (move dx2 dy2 duration2 v2 w') = Ok tt)) /\
  (forall w dx dy duration_ms v,
      (exists msg, fst (move dx dy duration_ms v w) = Raise (ConnectionError msg))
      <-> connected w = false).
Proof.
  assert (Hclass : forall w dx dy duration_ms v e,
      fst (move dx dy duration_ms v w) = Raise e ->
      is_ValueError e = true ->
      ((exists msg, e = ValueError msg) /\
       snd (move dx dy duration_ms v w) = w /\
       (curve_of v = None \/
        exists c, curve_of v = Some c /\
                  ~ valid_command dx dy duration_ms (Curves.int c))) \/
      (exists t,
          e = ValueError_float "Not a valid timeout: " t /\
          timeout_seconds_of w duration_ms = Ok t /\
          duration_ms + timeout_buffer_ms (self w) < 0 /\
          writes (snd (move dx dy duration_ms v w)) = (writes w + 1)%nat)).
  { intros w dx dy duration_ms v e.
    destruct (connected_dec w) as [H|H].
    - rewrite (move_connected _ _ _ _ _ H).
      destruct (curve_of v) as [c|] eqn:Ec.
      + destruct (valid_command_dec dx dy duration_ms (Curves.int c))
          as [Hvalid|Hinv].
        * rewrite (encode_valid _ _ _ _ Hvalid).
          destruct (timeout_seconds_of w duration_ms) as [t|e'] eqn:Et.
          -- intros Hr Hv.
             destruct (send_with_retry_raises_reason _ _ _ _ _ Hr)
               as [(Hneg & ->) | [(_ & ->) | (_ & b & _ & ->)]];
               [|discriminate|discriminate].
             right. exists t. split; [reflexivity|]. split; [reflexivity|].
             split; [exact (timeout_refused_negative _ _ _ Et Hneg)|].
             destruct (range (MAX_RETRIES (self w) + 1)) as [|attempt rest];
               [simpl in Hr; discriminate|].
             rewrite (send_with_retry_refused _ _ _ _ _ Hneg). simpl snd.
             rewrite after_write_writes. lia.
          -- simpl. intros [= <-].
             destruct (timeout_seconds_of_raises _ _ _ Et) as (-> & _).
             discriminate.
        * destruct (encode_invalid _ _ _ _ Hinv) as [msg ->].
          simpl. intros [= <-] _. left.
          split; [exists msg; reflexivity|]. split; [reflexivity|].
          right. exists c. auto.
      + simpl. intros [= <-] _. left.
        split; [eexists; reflexivity|]. split; [reflexivity|]. left.
        reflexivity.
    - rewrite (move_not_connected _ _ _ _ _ H). simpl. intros [= <-].
      discriminate. }
  split; [|split; [|split; [|split; [|split]]]].
  - intros w dx dy duration_ms v Hc Hbad.
    rewrite (move_connected _ _ _ _ _ Hc).
    destruct Hbad as [-> | (c & -> & Hinv)]; [eexists; reflexivity|].
    destruct (encode_invalid _ _ _ _ Hinv) as [msg ->].
    exists msg. reflexivity.
  - exact Hclass.
  - intros w dx dy duration_ms v e Hr Hv Hb.
    destruct (Hclass w dx dy duration_ms v e Hr Hv)
      as [(_ & Hw & _) | (t & _ & _ & Hneg & _)]; [exact Hw | lia].
  - intros w dx dy duration_ms v. cbv zeta.
    destruct (move_frame dx dy duration_ms v w) as (Hs & Ho & _).
    split; [exact Hs|]. split; [exact Ho|].
    apply move_connected_preserved.
  - intros w dx dy duration_ms v e Hr Hne. cbv zeta.
    assert (Hc : connected w = true).
    { destruct (connected_dec w) as [H|H]; [exact H|].
      rewrite (move_not_connected _ _ _ _ _ H) in Hr. simpl in Hr.
      injection Hr as <-. exfalso. eapply Hne. reflexivity. }
    set (w' := snd (move dx dy duration_ms v w)).
    assert (Hc' : connected w' = true)
      by (unfold w'; rewrite move_connected_preserved; exact Hc).
    assert (Hs' : self w' = self w)
      by (apply (move_frame dx dy duration_ms v w)).
    split; [exact Hc'|]. split.
    { unfold _ensure_connected. unfold connected in Hc'.
      destruct (_serial (self w')); [|discriminate].
      rewrite Hc'. reflexivity. }
    intros dx2 dy2 duration2 v2 c2 Hv2 Hvalid2 Hmax Hb Hfit.
    destruct (move_after_naks w' dx2 dy2 duration2 v2 c2 []
                (Serial.peer (tty w')) Hc' Hv2 Hvalid2)
      as (wj & rest & t & _ & Hpos & Hs & Hw & Ha & Hrun);
      [unfold budget_ms; rewrite Hs'; exact Hb
      |unfold budget_ms; rewrite Hs'; exact Hfit
      |constructor | rewrite Hs'; simpl; lia | reflexivity |].
    rewrite Hrun. split.
    + pose proof (send_with_retry_writes
                    (payload dx2 dy2 duration2 (Curves.int c2)
                     ++ [xor_fold (payload dx2 dy2 duration2 (Curves.int c2))])
                    t (Z.of_nat (List.length (@nil (list Z)))) rest wj) as Hlt.
      simpl List.length in Hw. lia.
    + rewrite send_with_retry_step, Hpos. cbv zeta.
      fold (next_answer w') in Ha. rewrite Ha.
      destruct (next_answer w') as [|b more]; [discriminate|].
      simpl. intros Hb0. injection Hb0 as ->. reflexivity.
  - intros w dx dy duration_ms v. split.
    + intros [msg Hr]. destruct (connected_dec w) as [H|H]; [|exact H].
      exfalso. exact (move_connected_raises w dx dy duration_ms v _ H Hr msg eq_refl).
    + intros H. rewrite (move_not_connected _ _ _ _ _ H).
      eexists. reflexivity.
Qed.

Lemma move_error_atomicity_witness :
  (exists msg,
      move 40000 0 500 (PyCurve EASE_IN) (session_on [[ACK_OK]]) =
      (Raise (ValueError msg), session_on [[ACK_OK]])) /\
  (let w' := snd (move 5 5 100 (PyInt 1) (session_on [[]; [ACK_OK]])) in
   fst (move 5 5 100 (PyInt 1) (session_on [[]; [ACK_OK]]))
   = Raise (TimeoutError (S754_finite false 4953959590107546 (-52))) /\
   connected w' = true /\
   fst (move (-5) (-5) 100 (PyInt 1) w') = Ok tt).
Proof.
  destruct move_error_atomicity as (H & _ & _ & _ & H' & _).
  split.
  - apply (H (session_on [[ACK_OK]]) 40000 0 500 (PyCurve EASE_IN)).
    + reflexivity.
    + right. exists EASE_IN. split; [reflexivity|].
      unfold valid_command. lia.
  - cbv zeta. split; [reflexivity|].
    destruct (H' (session_on [[]; [ACK_OK]]) 5 5 100 (PyInt 1)
                 (TimeoutError (S754_finite false 4953959590107546 (-52)))
                 eq_refl) as (Hc & _ & Hnext).
    + intros msg. discriminate.
    + split; [exact Hc|].
      apply (Hnext (-5) (-5) 100 (PyInt 1) EASE_IN).
      * reflexivity.
      * unfold valid_command. simpl. lia.
      * apply Z.leb_le. reflexivity.
      * apply Z.leb_le. reflexivity.
      * eexists. reflexivity.
      * reflexivity.
Defined.

(** The session never leaves a transport open behind a dropped reference. *)
Lemma owned_init port baudrate buffer env :
  owned (snd (__init__ port baudrate buffer env)).
Proof.
  unfold owned, __init__, _connect, Serial.new. cbn [Client.baudrate].
  destruct (baudrate <? 0); [reflexivity|].
  destruct env as [reason|answers|e]; [reflexivity|discriminate|].
  destruct e; reflexivity.
Qed.

Lemma owned_move dx dy duration_ms v w :
  owned w -> owned (snd (move dx dy duration_ms v w)).
Proof.
  unfold owned.
  destruct (move_frame dx dy duration_ms v w) as (Hs & Ho & _).
  rewrite Hs, Ho. auto.
Qed.

Lemma close_not_connected w : connected w = false -> close w = (Ok tt, w).
Proof.
  unfold connected, close. destruct (_serial (self w)); [|reflexivity].
  intros ->. reflexivity.
Qed.

Lemma close_disconnects w : connected (snd (close w)) = false.
Proof.
  unfold connected, close.
  destruct (_serial (self w)) eqn:E; simpl; [|rewrite E; reflexivity].
  destruct (Serial.is_open (tty w)) eqn:O; simpl; [reflexivity|].
  rewrite E. exact O.
Qed.

(** C9.  [close] is idempotent.  It never raises; on a session that is not
    connected (already closed, or never opened) it changes nothing; after a
    first [close] a second one - called directly, by [__exit__] or by
    [__del__] - is a no-op that returns normally and leaves the world as it
    is; and after [close] the session is not connected and the transport it
    owned is not open, whichever branch of [close] ran. *)
Theorem close_idempotent :
  (forall w, fst (close w) = Ok tt) /\
  (forall w, connected w = false -> close w = (Ok tt, w)) /\
  (forall w,
      let w1 := snd (close w) in
      close w1 = (Ok tt, w1) /\
      __exit__ w1 = (Ok tt, w1) /\
      __del__ w1 = (Ok tt, w1)) /\
  (forall w, connected (snd (close w)) = false) /\
  (forall w,
      owned w ->
      Serial.is_open (tty (snd (close w))) = false /\ owned (snd (close w))) /\
  (forall port baudrate buffer env,
      owned (snd (__init__ port baudrate buffer env))) /\
  (forall dx dy duration_ms v w,
      owned w -> owned (snd (move dx dy duration_ms v w))) /\
  (forall dx dy duration_ms v w,
      move dx dy duration_ms v (snd (close w)) =
      (Raise (ConnectionError "Not connected to Arduino"), snd (close w))).
Proof.
  split; [|split; [|split; [|split; [|split; [|split; [|split]]]]]].
  - intros w. unfold close.
    destruct (_serial (self w)); [|reflexivity].
    destruct (Serial.is_open (tty w)); reflexivity.
  - exact close_not_connected.
  - intros w. cbv zeta. unfold __exit__, __del__.
    rewrite (close_not_connected _ (close_disconnects w)). auto.
  - exact close_disconnects.
  - intros w Ho. unfold owned in *. unfold close.
    destruct (_serial (self w)) eqn:E; simpl.
    + destruct (Serial.is_open (tty w)) eqn:O; simpl; [auto|].
      rewrite E. auto.
    + rewrite E. auto.
  - exact owned_init.
  - exact owned_move.
  - intros dx dy duration_ms v w. apply move_not_connected, close_disconnects.
Qed.

Lemma close_idempotent_witness :
  owned (session_on [[ACK_OK]]) /\
  Serial.is_open (tty (session_on [[ACK_OK]])) = true /\
  Serial.is_open (tty (snd (close (session_on [[ACK_OK]])))) = false /\
  close (snd (close (session_on [[ACK_OK]]))) =
    (Ok tt, snd (close (session_on [[ACK_OK]]))).
Proof.
  destruct close_idempotent as (_ & _ & Hi & _ & Hr & Ho & _).
  assert (Hown : owned (session_on [[ACK_OK]])) by apply Ho.
  split; [exact Hown|]. split; [reflexivity|].
  split; [exact (proj1 (Hr _ Hown)) | exact (proj1 (Hi (session_on [[ACK_OK]])))].
Defined.

Lemma by_value_member n :
  0 <= n <= 3 -> exists c, by_value n = Some c /\ Curves.int c = n.
Proof.
  intros H.
  assert (Hn : n = 0 \/ n = 1 \/ n = 2 \/ n = 3) by lia.
  destruct Hn as [-> | [-> | [-> | ->]]]; eexists; split; reflexivity.
Qed.

Lemma by_value_none n : ~ (0 <= n <= 3) -> by_value n = None.
Proof.
  intros H. unfold by_value.
  destruct (Z.eqb_spec n 0); [lia|]. destruct (Z.eqb_spec n 1); [lia|].
  destruct (Z.eqb_spec n 2); [lia|]. destruct (Z.eqb_spec n 3); [lia|].
  reflexivity.
Qed.

(** C10.  The curve argument of [move] may be a [Curve] member or a plain
    integer: for every [n] in [0, 3] there is a member [c] with value [n],
    [Curve(n)] is [c], and [move dx dy duration_ms n] is the same
    computation as [move dx dy duration_ms c] - same result, same frames
    written, the frame being that of [encode_move_command] at [n].  For a
    value that is neither a member nor convertible to one (an integer outside
    [0, 3], a string, [None]) [move] on a connected session raises
    [ValueError] naming the value, whatever the other arguments, and the
    world is untouched. *)
Theorem move_curve_argument :
  (forall n,
      0 <= n <= 3 ->
      exists c,
        Curve_call (PyInt n) = Some c /\ Curves.int c = n /\
        (forall dx dy duration_ms w,
            move dx dy duration_ms (PyInt n) w =
            move dx dy duration_ms (PyCurve c) w) /\
        (forall dx dy duration_ms w command,
            encode_move_command dx dy duration_ms n = Ok command ->
            exists k,
              Serial.written (tty (snd (move dx dy duration_ms (PyInt n) w))) =
              Serial.written (tty w) ++ repeat command k /\
              Serial.written (tty (snd (move dx dy duration_ms (PyCurve c) w))) =
              Serial.written (tty w) ++ repeat command k)) /\
  (forall v dx dy duration_ms w,
      as_Curve v = None -> Curve_call v = None ->
      connected w = true ->
      move dx dy duration_ms v w =
      (Raise (ValueError ("Invalid curve value: " ++ pyformat v)), w)) /\
  (forall n, ~ (0 <= n <= 3) ->
             as_Curve (PyInt n) = None /\ Curve_call (PyInt n) = None) /\
  (forall s, as_Curve (PyStr s) = None /\ Curve_call (PyStr s) = None) /\
  (as_Curve PyNone = None /\ Curve_call PyNone = None) /\
  (move 40000 0 0 (PyInt 4) (session_on [[ACK_OK]]) =
   (Raise (ValueError "Invalid curve value: 4"), session_on [[ACK_OK]])).
Proof.
  split; [|split; [|split; [|split; [|split]]]].
  - intros n Hn. destruct (by_value_member n Hn) as (c & Hc & Hi).
    assert (Hsame : forall dx dy duration_ms w,
               move dx dy duration_ms (PyInt n) w =
               move dx dy duration_ms (PyCurve c) w).
    { intros dx dy duration_ms w. unfold move. simpl as_Curve.
      simpl Curve_call. rewrite Hc. reflexivity. }
    exists c. split; [exact Hc|]. split; [exact Hi|]. split; [exact Hsame|].
    intros dx dy duration_ms w command E.
    destruct (move_frame dx dy duration_ms (PyCurve c) w) as (_ & _ & k & _ & Hw).
    exists k. rewrite Hsame. split; apply Hw; intros c' Hc';
      injection Hc' as <-; rewrite Hi; exact E.
  - intros v dx dy duration_ms w Ha Hcall Hc.
    rewrite (move_connected _ _ _ _ _ Hc). unfold curve_of.
    rewrite Ha, Hcall. reflexivity.
  - intros n Hn. split; [reflexivity|]. simpl. apply by_value_none. exact Hn.
  - intros s. split; reflexivity.
  - split; reflexivity.
  - reflexivity.
Qed.

Lemma move_curve_argument_witness :
  move 200 0 500 (PyInt 3) (session_on [[ACK_OK]]) =
  move 200 0 500 (PyCurve EASE_IN_OUT) (session_on [[ACK_OK]]) /\
  move 200 0 500 (PyStr "linear") (session_on [[ACK_OK]]) =
  (Raise (ValueError "Invalid curve value: linear"), session_on [[ACK_OK]]).
Proof.
  destruct move_curve_argument as (Hint & Hbad & _).
  split.
  - destruct (Hint 3) as (c & Hc & _ & Hsame & _); [lia|].
    injection Hc as <-. apply Hsame.
  - apply (Hbad (PyStr "linear")); reflexivity.
Defined.

(** * Further properties of the codec *)

Lemma str_inj a b : str a = str b -> a = b.
Proof.
  unfold str. intros H. apply DecimalZ.to_int_inj.
  assert (Hnn : forall z, Z.to_int z <> Decimal.Pos Decimal.Nil /\
                          Z.to_int z <> Decimal.Neg Decimal.Nil).
  { intros [|p|p]; simpl; split; try discriminate;
      intros E; injection E as E;
      exact (DecimalPos.Unsigned.to_uint_nonnil p E). }
  assert (E : Some (Z.to_int a) = Some (Z.to_int b)).
  { rewrite <- (NilZero.isi (Z.to_int a)) by apply Hnn.
    rewrite <- (NilZero.isi (Z.to_int b)) by apply Hnn.
    rewrite H. reflexivity. }
  injection E as E. exact E.
Qed.

(** The fold from any accumulator is the fold from 0 XOR-ed with it. *)
Lemma xor_fold_from l acc :
  fold_left (fun checksum byte => Z.lxor checksum byte) l acc =
  Z.lxor (xor_fold l) acc.
Proof.
  unfold xor_fold. rewrite <- xor_fold_acc, Z.lxor_0_l. reflexivity.
Qed.

Lemma xor_fold_app l l' :
  xor_fold (l ++ l') = Z.lxor (xor_fold l) (xor_fold l').
Proof.
  unfold xor_fold at 1. rewrite fold_left_app. fold (xor_fold l).
  rewrite xor_fold_from. apply Z.lxor_comm.
Qed.

Lemma nth_flip_same l : forall i k d,
  (i < List.length l)%nat ->
  nth i (flip_bit i k l) d = Z.lxor (nth i l d) (Z.shiftl 1 k).
Proof.
  induction l as [|b l IH]; intros i k d Hi; simpl in Hi; [lia|].
  destruct i as [|i]; simpl; [reflexivity|]. apply IH. lia.
Qed.

Lemma int16_le_bytes_inj x y :
  -32768 <= x <= 32767 -> -32768 <= y <= 32767 ->
  int16_le_bytes x = int16_le_bytes y -> x = y.
Proof.
  intros Hx Hy E. unfold int16_le_bytes in E. injection E as E1 E2.
  rewrite <- (int16_le_roundtrip x Hx), <- (int16_le_roundtrip y Hy).
  rewrite E1, E2. reflexivity.
Qed.

(** X1.  [response_code_to_string] is injective: two different response
    codes, known or not, never get the same text, so the reason carried by a
    [ProtocolError] identifies the code the peer sent. *)
Theorem response_code_to_string_inj a b :
  response_code_to_string a = response_code_to_string b -> a = b.
Proof.
  unfold response_code_to_string.
  destruct (Z.eqb_spec a ACK_OK) as [->|Ha0];
    [|destruct (Z.eqb_spec a NAK_CHECKSUM) as [->|Ha1];
      [|destruct (Z.eqb_spec a NAK_INVALID) as [->|Ha2];
        [|destruct (Z.eqb_spec a NAK_INTERRUPTED) as [->|Ha3]]]];
  (destruct (Z.eqb_spec b ACK_OK) as [->|Hb0];
    [|destruct (Z.eqb_spec b NAK_CHECKSUM) as [->|Hb1];
      [|destruct (Z.eqb_spec b NAK_INVALID) as [->|Hb2];
        [|destruct (Z.eqb_spec b NAK_INTERRUPTED) as [->|Hb3]]]]);
  simpl; intros H; try reflexivity; try discriminate H.
  injection H as H. apply str_inj. exact H.
Qed.

Lemma response_code_to_string_inj_witness : 0x55 = 0x55.
Proof.
  apply (response_code_to_string_inj 0x55 0x55). reflexivity.
Defined.

(** X2.  [encode_move_command] is injective where it succeeds: two commands
    that encode to the same frame are the same command. *)
Theorem encode_move_command_inj dx dy duration_ms curve dx' dy' duration_ms'
    curve' frame :
  encode_move_command dx dy duration_ms curve = Ok frame ->
  encode_move_command dx' dy' duration_ms' curve' = Ok frame ->
  dx = dx' /\ dy = dy' /\ duration_ms = duration_ms' /\ curve = curve'.
Proof.
  intros E E'.
  pose proof (encode_ok_valid _ _ _ _ _ E) as Hv.
  pose proof (encode_ok_valid _ _ _ _ _ E') as Hv'.
  rewrite (encode_valid _ _ _ _ Hv) in E.
  rewrite (encode_valid _ _ _ _ Hv') in E'.
  rewrite <- E' in E. apply (f_equal (fun r => match r with
                                               | Ok f => firstn 9 f
                                               | Raise _ => []
                                               end)) in E.
  change (payload dx dy duration_ms curve = payload dx' dy' duration_ms' curve')
    in E.
  destruct Hv as (Hx & Hy & Hd & Hc). destruct Hv' as (Hx' & Hy' & Hd' & Hc').
  unfold payload, int16_le_bytes, uint16_le_bytes in E. simpl in E.
  injection E as Ex1 Ex2 Ey1 Ey2 Ed1 Ed2 Ec.
  repeat split.
  - apply int16_le_bytes_inj; try assumption.
    unfold int16_le_bytes. rewrite Ex1, Ex2. reflexivity.
  - apply int16_le_bytes_inj; try assumption.
    unfold int16_le_bytes. rewrite Ey1, Ey2. reflexivity.
  - rewrite <- (uint16_le_roundtrip duration_ms),
      <- (uint16_le_roundtrip duration_ms'), Ed1, Ed2. reflexivity.
  - exact Ec.
Qed.

Lemma encode_move_command_inj_witness :
  200 = 200 /\ 0 = 0 /\ 500 = 500 /\ 0 = 0.
Proof.
  apply (encode_move_command_inj 200 0 500 0 200 0 500 0
           [0xAA; 0x01; 0xC8; 0x00; 0x00; 0x00; 0xF4; 0x01; 0x00; 0x96]);
    reflexivity.
Defined.

(** X3.  The XOR of all ten bytes of an encoded frame is zero: a receiver
    can verify a frame by folding XOR over the whole of it. *)
Theorem encoded_frame_xor_zero dx dy duration_ms curve frame :
  encode_move_command dx dy duration_ms curve = Ok frame ->
  xor_fold frame = 0.
Proof.
  intros E. pose proof (encode_ok_valid _ _ _ _ _ E) as Hv.
  rewrite (encode_valid _ _ _ _ Hv) in E. injection E as <-.
  change (xor_fold (payload dx dy duration_ms curve
                    ++ [xor_fold (payload dx dy duration_ms curve)]) = 0).
  rewrite xor_fold_app.
  change (xor_fold [xor_fold (payload dx dy duration_ms curve)])
    with (Z.lxor 0 (xor_fold (payload dx dy duration_ms curve))).
  rewrite Z.lxor_0_l. apply Z.lxor_nilpotent.
Qed.

Lemma encoded_frame_xor_zero_witness :
  xor_fold [0xAA; 0x01; 0xC8; 0x00; 0x00; 0x00; 0xF4; 0x01; 0x00; 0x96] = 0.
Proof.
  apply (encoded_frame_xor_zero 200 0 500 0). reflexivity.
Defined.

(** X4.  A blind spot of the checksum: inverting the same bit in two
    different bytes among the first nine of an encoded frame gives a frame
    that differs from the original and is still well-formed. *)
Theorem checksum_misses_paired_bit_flips dx dy duration_ms curve frame i j k :
  encode_move_command dx dy duration_ms curve = Ok frame ->
  (i < 9)%nat -> (j < 9)%nat -> i <> j -> 0 <= k < 8 ->
  flip_bit i k (flip_bit j k frame) <> frame /\
  well_formed (flip_bit i k (flip_bit j k frame)) = true.
Proof.
  intros E Hi Hj Hij Hk.
  pose proof (encode_ok_valid _ _ _ _ _ E) as Hv.
  rewrite (encode_valid _ _ _ _ Hv) in E.
  set (p := payload dx dy duration_ms curve) in E.
  assert (Hf : frame = p ++ [xor_fold p]) by congruence. clear E.
  assert (Hlen : List.length p = 9%nat) by reflexivity.
  assert (Hlen10 : List.length frame = 10%nat) by (rewrite Hf; reflexivity).
  assert (Hfirst : firstn 9 frame = p) by (rewrite Hf; reflexivity).
  assert (Hlast : nth 9 frame 0 = xor_fold p) by (rewrite Hf; reflexivity).
  clearbody p. clear Hf.
  split.
  - intros C.
    assert (Hn : nth i (flip_bit i k (flip_bit j k frame)) 0 = nth i frame 0)
      by (rewrite C; reflexivity).
    rewrite nth_flip_same in Hn by (rewrite length_flip; lia).
    rewrite nth_flip in Hn by congruence.
    revert Hn. apply lxor_mask_neq. lia.
  - unfold well_formed, len, PACKET_SIZE.
    rewrite !length_flip, Hlen10.
    rewrite !nth_flip by lia. rewrite !firstn_flip by assumption.
    rewrite Hfirst, Hlast.
    unfold xor_fold at 2.
    rewrite xor_fold_flip by (rewrite length_flip; lia).
    rewrite xor_fold_flip by lia. fold (xor_fold p).
    rewrite Z.lxor_assoc, Z.lxor_nilpotent, Z.lxor_0_r.
    apply andb_true_intro. split; [reflexivity | apply Z.eqb_refl].
Qed.

Lemma checksum_misses_paired_bit_flips_witness :
  [0xAA; 0x01; 0xC8; 0x01; 0x01; 0x00; 0xF4; 0x01; 0x00; 0x96] <>
  [0xAA; 0x01; 0xC8; 0x00; 0x00; 0x00; 0xF4; 0x01; 0x00; 0x96] /\
  well_formed [0xAA; 0x01; 0xC8; 0x01; 0x01; 0x00; 0xF4; 0x01; 0x00; 0x96]
  = true.
Proof.
  refine (checksum_misses_paired_bit_flips 200 0 500 0
            [0xAA; 0x01; 0xC8; 0x00; 0x00; 0x00; 0xF4; 0x01; 0x00; 0x96]
            3 4 0 _ _ _ _ _);
    [reflexivity | lia | lia | lia | lia].
Defined.

(** X5.  The checksum does not tell [dx] from [dy]: the command with the two
    exchanged has the same checksum byte. *)
Theorem checksum_symmetric_in_dx_dy dx dy duration_ms curve :
  valid_command dx dy duration_ms curve ->
  exists frame frame',
    encode_move_command dx dy duration_ms curve = Ok frame /\
    encode_move_command dy dx duration_ms curve = Ok frame' /\
    nth 9 frame 0 = nth 9 frame' 0.
Proof.
  intros Hv.
  assert (Hv' : valid_command dy dx duration_ms curve)
    by (unfold valid_command in *; tauto).
  eexists. eexists.
  split; [apply encode_valid; exact Hv|].
  split; [apply encode_valid; exact Hv'|].
  change (xor_fold (payload dx dy duration_ms curve) =
          xor_fold (payload dy dx duration_ms curve)).
  unfold payload. rewrite !xor_fold_app.
  f_equal.
  rewrite <- (Z.lxor_assoc (xor_fold (int16_le_bytes dx))
                           (xor_fold (int16_le_bytes dy))).
  rewrite <- (Z.lxor_assoc (xor_fold (int16_le_bytes dy))
                           (xor_fold (int16_le_bytes dx))).
  rewrite (Z.lxor_comm (xor_fold (int16_le_bytes dx))). reflexivity.
Qed.

Lemma checksum_symmetric_in_dx_dy_witness :
  exists frame frame',
    encode_move_command 300 (-150) 400 2 = Ok frame /\
    encode_move_command (-150) 300 400 2 = Ok frame' /\
    nth 9 frame 0 = nth 9 frame' 0.
Proof.
  apply (checksum_symmetric_in_dx_dy 300 (-150) 400 2).
  unfold valid_command. lia.
Defined.


(** * Further properties of the session *)

(** ** Construction *)

(** Splits off the leading conjuncts that are equations holding by
    computation. *)
Ltac fields :=
  repeat match goal with
         | |- (_ = _) /\ _ => split; [reflexivity|]
         end.

(** X6.  [__init__] succeeds exactly when the baud rate is not negative and
    the port can be opened.  On success the session is connected with the
    arguments stored, a retry budget of 1, a 1-second read timeout and
    nothing written or read.  A negative baud rate makes the constructor of
    the transport raise [ValueError], which [_connect] does not catch; a port
    that cannot be opened gives [ConnectionError] naming the port and the
    reason; any other exception of the constructor passes through as it is.
    After every failure the half-built object is inert: [close] (hence
    [__del__]) changes nothing and [move] raises [ConnectionError] without
    writing. *)
Theorem init_outcome port baudrate buffer env :
  let r := fst (__init__ port baudrate buffer env) in
  let w := snd (__init__ port baudrate buffer env) in
  (r = Ok tt <->
   0 <= baudrate /\ exists answers, env = Serial.Present answers) /\
  (connected w = true <-> r = Ok tt) /\
  Client.port (self w) = port /\ Client.baudrate (self w) = baudrate /\
  timeout_buffer_ms (self w) = buffer /\ MAX_RETRIES (self w) = 1 /\
  writes w = 0%nat /\ Serial.in_buffer (tty w) = [] /\
  Serial.deadlines (tty w) = [] /\
  Serial.timeout (tty w) = Float.one /\ (Float.value Float.one == 1)%Q /\
  (forall answers, 0 <= baudrate -> env = Serial.Present answers ->
                   Serial.peer (tty w) = answers) /\
  (baudrate < 0 ->
   r = Raise (ValueError ("Not a valid baudrate: " ++ str baudrate))) /\
  (forall reason,
      0 <= baudrate ->
      env = Serial.Absent reason \/
      env = Serial.Unsupported (SerialException reason) ->
      r = Raise (ConnectionError ("Failed to connect to Arduino on "
                                  ++ port ++ ": " ++ reason))) /\
  (forall e,
      0 <= baudrate -> env = Serial.Unsupported e ->
      (forall reason, e <> SerialException reason) ->
      r = Raise e) /\
  (r <> Ok tt ->
   _serial (self w) = None /\
   close w = (Ok tt, w) /\ __del__ w = (Ok tt, w) /\
   forall dx dy duration_ms v,
     move dx dy duration_ms v w =
     (Raise (ConnectionError "Not connected to Arduino"), w)).
Proof.
  cbv zeta. unfold __init__, _connect, Serial.new. cbn [Client.baudrate].
  assert (Hone : (Float.value Float.one == 1)%Q) by reflexivity.
  assert (Hinert : forall r0 : result unit,
             r0 <> Ok tt ->
             let w0 := mkWorld (mkMouse port baudrate buffer
                                  DEFAULT_MAX_RETRIES None)
                               (Serial.mk false Float.one [] [] [] []) in
             _serial (self w0) = None /\
             close w0 = (Ok tt, w0) /\ __del__ w0 = (Ok tt, w0) /\
             forall dx dy duration_ms v,
               move dx dy duration_ms v w0 =
               (Raise (ConnectionError "Not connected to Arduino"), w0)).
  { intros r0 _. cbv zeta. repeat (split; [reflexivity|]).
    intros. reflexivity. }
  destruct (Z.ltb_spec baudrate 0) as [Hneg|Hpos].
  - cbn [fst snd self tty].
    split; [split; [discriminate | intros [C _]; lia]|].
    split; [split; discriminate|].
    fields.
    split; [exact Hone|].
    split; [intros; lia|]. split; [reflexivity|].
    split; [intros; lia|]. split; [intros; lia|].
    apply Hinert.
  - destruct env as [reason|answers|e].
    + cbn [fst snd self tty].
      split; [split; [discriminate | intros [_ [a Ha]]; discriminate]|].
      split; [split; discriminate|].
      fields.
      split; [exact Hone|].
      split; [intros a _ Ha; discriminate|]. split; [intros; lia|].
      split; [intros reason' _ [E|E]; [injection E as <-; reflexivity
                                      |discriminate]|].
      split; [intros e _ E; discriminate|].
      apply Hinert.
    + cbn [fst snd self tty].
      split; [split; [intros _; split; [lia | eexists; reflexivity]
                     | reflexivity]|].
      split; [split; reflexivity|].
      fields.
      split; [exact Hone|].
      split; [intros a _ Ha; injection Ha as <-; reflexivity|].
      split; [intros; lia|].
      split; [intros reason _ [E|E]; discriminate|].
      split; [intros e _ E; discriminate|].
      intros C. exfalso. apply C. reflexivity.
    + destruct e; cbn [fst snd self tty];
        (split; [split; [discriminate | intros [_ [a Ha]]; discriminate]|]);
        (split; [split; discriminate|]);
        fields;
        (split; [exact Hone|]);
        (split; [intros a _ Ha; discriminate|]);
        (split; [intros; lia|]);
        (split; [intros reason _ [E|E];
                 [discriminate | try discriminate; injection E as <-;
                                 reflexivity]|]);
        (split; [intros e' _ E Hne; injection E as <-;
                 try reflexivity; exfalso; eapply Hne; reflexivity|]);
        apply Hinert.
Qed.

Lemma init_outcome_witness :
  fst (__init__ "COM3" (-1) 250 (Serial.Present [[ACK_OK]]))
  = Raise (ValueError "Not a valid baudrate: -1") /\
  move 1 1 1 PyNone
       (snd (__init__ "COM3" (-1) 250 (Serial.Present [[ACK_OK]])))
  = (Raise (ConnectionError "Not connected to Arduino"),
     snd (__init__ "COM3" (-1) 250 (Serial.Present [[ACK_OK]]))).
Proof.
  destruct (init_outcome "COM3" (-1) 250 (Serial.Present [[ACK_OK]]))
    as (_ & _ & _ & _ & _ & _ & _ & _ & _ & _ & _ & _ & Hneg & _ & _ & H).
  split.
  - apply Hneg. lia.
  - apply H. discriminate.
Defined.

(** ** The exchange *)

(** X7.  Stale input does not leak into an exchange: [move] discards what
    the input buffer held before it writes, so the bytes an abandoned
    exchange left unread change neither the result nor the frames written,
    and once a frame has gone out the final world is the same too. *)
Theorem move_ignores_stale_input stale dx dy duration_ms v w :
  let clean := move dx dy duration_ms v w in
  let dirty := move dx dy duration_ms v (with_in_buffer stale w) in
  fst dirty = fst clean /\
  Serial.written (tty (snd dirty)) = Serial.written (tty (snd clean)) /\
  ((writes w < writes (snd clean))%nat -> snd dirty = snd clean).
Proof.
  cbv zeta. destruct (connected_dec w) as [H|H].
  - assert (H' : connected (with_in_buffer stale w) = true) by exact H.
    rewrite (move_connected _ _ _ _ _ H), (move_connected _ _ _ _ _ H').
    destruct (curve_of v) as [c|];
      [|split; [reflexivity|]; split; [reflexivity|]; simpl; lia].
    destruct (encode_move_command dx dy duration_ms (Curves.int c))
      as [command|e];
      [|split; [reflexivity|]; split; [reflexivity|]; simpl; lia].
    change (MAX_RETRIES (self (with_in_buffer stale w)))
      with (MAX_RETRIES (self w)).
    change (timeout_seconds_of (with_in_buffer stale w) duration_ms)
      with (timeout_seconds_of w duration_ms).
    destruct (timeout_seconds_of w duration_ms) as [t|e];
      [|split; [reflexivity|]; split; [reflexivity|]; simpl; lia].
    destruct (range (MAX_RETRIES (self w) + 1)) as [|attempt rest].
    + split; [reflexivity|]. split; [reflexivity|]. simpl. lia.
    + rewrite send_with_retry_stale. auto.
  - assert (H' : connected (with_in_buffer stale w) = false) by exact H.
    rewrite (move_not_connected _ _ _ _ _ H), (move_not_connected _ _ _ _ _ H').
    split; [reflexivity|]. split; [reflexivity|]. simpl. lia.
Qed.

Lemma move_ignores_stale_input_witness :
  move 200 0 500 (PyInt 0)
       (with_in_buffer [NAK_INVALID; NAK_INVALID] (session_on [[ACK_OK]])) =
  move 200 0 500 (PyInt 0) (session_on [[ACK_OK]]).
Proof.
  pose proof (move_ignores_stale_input [NAK_INVALID; NAK_INVALID]
                200 0 500 (PyInt 0) (session_on [[ACK_OK]])) as H.
  cbv zeta in H. destruct H as (Hr & _ & Hw).
  rewrite (surjective_pairing (move 200 0 500 (PyInt 0)
             (with_in_buffer [NAK_INVALID; NAK_INVALID] (session_on [[ACK_OK]])))).
  rewrite Hr, Hw.
  - symmetry. apply surjective_pairing.
  - vm_compute. lia.
Defined.

Lemma encode_well_formed dx dy duration_ms curve frame :
  encode_move_command dx dy duration_ms curve = Ok frame ->
  List.length frame = 10%nat /\ well_formed frame = true.
Proof.
  intros E. pose proof (encode_ok_valid _ _ _ _ _ E) as Hv.
  rewrite (encode_valid _ _ _ _ Hv) in E. injection E as <-.
  split; [reflexivity|].
  unfold well_formed. apply andb_true_intro.
  split; [reflexivity | apply Z.eqb_refl].
Qed.

(** X8.  [move] writes nothing but the frame of its command: what it adds to
    the log is at most [MAX_RETRIES + 1] frames, each of them the 10-byte,
    well-formed result of [encode_move_command] on the arguments - a retry
    resends the same bytes. *)
Theorem move_writes_only_encoded_frames dx dy duration_ms v w :
  exists new,
    Serial.written (tty (snd (move dx dy duration_ms v w))) =
      Serial.written (tty w) ++ new /\
    (List.length new <= Z.to_nat (MAX_RETRIES (self w) + 1))%nat /\
    forall frame,
      In frame new ->
      (exists c, curve_of v = Some c /\
                 encode_move_command dx dy duration_ms (Curves.int c)
                 = Ok frame) /\
      List.length frame = 10%nat /\ well_formed frame = true.
Proof.
  assert (Hnone : exists new,
             Serial.written (tty w) = Serial.written (tty w) ++ new /\
             (List.length new <= Z.to_nat (MAX_RETRIES (self w) + 1))%nat /\
             forall frame,
               In frame new ->
               (exists c, curve_of v = Some c /\
                          encode_move_command dx dy duration_ms (Curves.int c)
                          = Ok frame) /\
               List.length frame = 10%nat /\ well_formed frame = true).
  { exists []. rewrite app_nil_r. split; [reflexivity|].
    split; [simpl; lia|]. intros frame []. }
  destruct (connected_dec w) as [H|H];
    [|rewrite (move_not_connected _ _ _ _ _ H); exact Hnone].
  rewrite (move_connected _ _ _ _ _ H).
  destruct (curve_of v) as [c|]; [|exact Hnone].
  destruct (encode_move_command dx dy duration_ms (Curves.int c))
    as [command|e] eqn:E; [|exact Hnone].
  destruct (timeout_seconds_of w duration_ms) as [t|e]; [|exact Hnone].
  destruct (send_with_retry_frame command t
              (range (MAX_RETRIES (self w) + 1)) w)
    as (_ & _ & k & Hk & Hw & _).
  exists (repeat command k). split; [exact Hw|].
  rewrite repeat_length. split; [rewrite range_length in Hk; exact Hk|].
  intros frame Hin. apply repeat_spec in Hin. subst frame.
  split; [exists c; auto|]. eapply encode_well_formed. exact E.
Qed.

Lemma move_writes_only_encoded_frames_witness :
  exists new,
    Serial.written
      (tty (snd (move 200 0 500 (PyInt 0)
                   (session_on [[NAK_CHECKSUM]; [ACK_OK]])))) = [] ++ new /\
    (List.length new <= 2)%nat /\
    forall frame,
      In frame new ->
      (exists c, curve_of (PyInt 0) = Some c /\
                 encode_move_command 200 0 500 (Curves.int c) = Ok frame) /\
      List.length frame = 10%nat /\ well_formed frame = true.
Proof.
  exact (move_writes_only_encoded_frames 200 0 500 (PyInt 0)
           (session_on [[NAK_CHECKSUM]; [ACK_OK]])).
Defined.

(** X9.  [move] returns normally only on an acknowledged command.  If it
    returns, the session was connected and the command valid, and either the
    retry budget is negative (the loop has no pass: nothing is written) or
    the peer answered NAK_CHECKSUM some number of times within the budget
    and then ACK_OK, with one frame written per answer. *)
Theorem move_success_means_ack dx dy duration_ms v w :
  fst (move dx dy duration_ms v w) = Ok tt ->
  connected w = true /\
  (exists c, curve_of v = Some c /\
             valid_command dx dy duration_ms (Curves.int c)) /\
  ((MAX_RETRIES (self w) < 0 /\ snd (move dx dy duration_ms v w) = w) \/
   (exists naks more tail,
       Serial.peer (tty w) = naks ++ (ACK_OK :: more) :: tail /\
       Forall is_nak_checksum naks /\
       Z.of_nat (List.length naks) <= MAX_RETRIES (self w) /\
       writes (snd (move dx dy duration_ms v w)) =
         (writes w + List.length naks + 1)%nat)).
Proof.
  destruct (connected_dec w) as [H|H];
    [|rewrite (move_not_connected _ _ _ _ _ H); simpl; discriminate].
  rewrite (move_connected _ _ _ _ _ H).
  destruct (curve_of v) as [c|]; [|simpl; discriminate].
  destruct (encode_move_command dx dy duration_ms (Curves.int c))
    as [command|e] eqn:E; [|simpl; discriminate].
  destruct (timeout_seconds_of w duration_ms) as [t|e]; [|simpl; discriminate].
  intros Hok. split; [exact H|].
  split; [exists c; split; [reflexivity | eapply encode_ok_valid; exact E]|].
  unfold range in *.
  destruct (Z.to_nat (MAX_RETRIES (self w) + 1)) as [|n] eqn:En.
  - left. split; [lia | reflexivity].
  - right.
    destruct (send_with_retry_ok command t (S n) 0 w)
      as (naks & more & tail & Hp & Hn & Hl & Hw);
      [simpl; lia | lia | exact Hok |].
    exists naks, more, tail. repeat split; try assumption. lia.
Qed.

Lemma move_success_means_ack_witness :
  connected (session_on [[NAK_CHECKSUM]; [ACK_OK]]) = true /\
  exists naks more tail,
    [[NAK_CHECKSUM]; [ACK_OK]] = naks ++ (ACK_OK :: more) :: tail /\
    Forall is_nak_checksum naks /\
    Z.of_nat (List.length naks) <= 1 /\
    writes (snd (move 200 0 500 (PyInt 0)
                   (session_on [[NAK_CHECKSUM]; [ACK_OK]]))) =
      (0 + List.length naks + 1)%nat.
Proof.
  destruct (move_success_means_ack 200 0 500 (PyInt 0)
              (session_on [[NAK_CHECKSUM]; [ACK_OK]]) eq_refl)
    as (Hc & _ & [[Hneg _]|Hack]).
  - exfalso. revert Hneg. vm_compute. discriminate.
  - split; [exact Hc | exact Hack].
Defined.

(** X10.  On the simulated transport (a port that stays up) the exceptions
    of [move] are of six kinds: [ConnectionError] on a session that is not
    connected; [ValueError] for the arguments, with the world unchanged;
    [OverflowError] when the budget [duration_ms + timeout_buffer_ms] is
    beyond the range of a float, with the world unchanged; the transport's
    [ValueError] for a negative timeout, which needs a negative budget and
    comes after the frame has been written once; [TimeoutError] carrying the
    timeout of the call; and [ProtocolError] whose message is
    ["Movement failed: "] followed by the text of a response code other
    than ACK_OK.  In particular [move] never raises [struct.error] and never
    the wrong-length [ProtocolError] of [decode_response]. *)
Theorem move_raises_only dx dy duration_ms v w e :
  fst (move dx dy duration_ms v w) = Raise e ->
  ((connected w = false /\ e = ConnectionError "Not connected to Arduino") \/
   (connected w = true /\ (exists msg, e = ValueError msg) /\
    snd (move dx dy duration_ms v w) = w) \/
   (connected w = true /\
    e = OverflowError "int too large to convert to float" /\
    ~ fits_float (duration_ms + timeout_buffer_ms (self w)) /\
    snd (move dx dy duration_ms v w) = w) \/
   (connected w = true /\
    duration_ms + timeout_buffer_ms (self w) < 0 /\
    (exists t, timeout_seconds_of w duration_ms = Ok t /\
               e = ValueError_float "Not a valid timeout: " t) /\
    writes (snd (move dx dy duration_ms v w)) = (writes w + 1)%nat) \/
   (connected w = true /\
    exists t, timeout_seconds_of w duration_ms = Ok t /\ e = TimeoutError t) \/
   (connected w = true /\
    exists b, b <> ACK_OK /\
              e = ProtocolError ("Movement failed: "
                                 ++ response_code_to_string b))) /\
  e <> StructError /\
  (forall n, e <> ProtocolError ("Expected 1-byte response, got "
                                 ++ n ++ " bytes")).
Proof.
  intros Hr.
  assert (Hkinds :
    (connected w = false /\ e = ConnectionError "Not connected to Arduino") \/
    (connected w = true /\ (exists msg, e = ValueError msg) /\
     snd (move dx dy duration_ms v w) = w) \/
    (connected w = true /\
     e = OverflowError "int too large to convert to float" /\
     ~ fits_float (duration_ms + timeout_buffer_ms (self w)) /\
     snd (move dx dy duration_ms v w) = w) \/
    (connected w = true /\
     duration_ms + timeout_buffer_ms (self w) < 0 /\
     (exists t, timeout_seconds_of w duration_ms = Ok t /\
                e = ValueError_float "Not a valid timeout: " t) /\
     writes (snd (move dx dy duration_ms v w)) = (writes w + 1)%nat) \/
    (connected w = true /\
     exists t, timeout_seconds_of w duration_ms = Ok t /\ e = TimeoutError t) \/
    (connected w = true /\
     exists b, b <> ACK_OK /\
               e = ProtocolError ("Movement failed: "
                                  ++ response_code_to_string b))).
  { destruct (connected_dec w) as [H|H].
    - revert Hr. rewrite (move_connected _ _ _ _ _ H).
      destruct (curve_of v) as [c|].
      + destruct (encode_move_command dx dy duration_ms (Curves.int c))
          as [command|e'] eqn:E.
        * destruct (timeout_seconds_of w duration_ms) as [t|e'] eqn:Et.
          -- intros Hr.
             destruct (send_with_retry_raises_reason _ _ _ _ _ Hr)
               as [(Hneg & ->) | [(_ & ->) | (_ & Hb)]].
             ++ right; right; right; left. split; [exact H|].
                split; [exact (timeout_refused_negative _ _ _ Et Hneg)|].
                split; [exists t; auto|].
                destruct (range (MAX_RETRIES (self w) + 1))
                  as [|attempt rest]; [simpl in Hr; discriminate|].
                rewrite (send_with_retry_refused _ _ _ _ _ Hneg). simpl snd.
                rewrite after_write_writes. lia.
             ++ right; right; right; right; left. split; [exact H|].
                exists t. auto.
             ++ right; right; right; right; right. auto.
          -- simpl. intros [= <-].
             destruct (timeout_seconds_of_raises _ _ _ Et) as (-> & Hfit).
             right; right; left. auto.
        * simpl. intros [= <-].
          right; left. split; [exact H|]. split; [|reflexivity].
          eapply encode_raises. exact E.
      + simpl. intros [= <-].
        right; left. split; [exact H|]. split; [|reflexivity].
        eexists. reflexivity.
    - left. rewrite (move_not_connected _ _ _ _ _ H) in Hr. simpl in Hr.
      injection Hr as <-. auto. }
  split; [exact Hkinds|].
  destruct Hkinds
    as [[_ ->] | [(_ & [msg ->] & _) | [(_ & -> & _) |
         [(_ & _ & (t & _ & ->) & _) | [(_ & t & _ & ->) | (_ & b & _ & ->)]]]]];
    split; try discriminate; intros n; simpl; discriminate.
Qed.

Lemma move_raises_only_witness :
  TimeoutError (S754_finite false 6755399441055744 (-52)) <> StructError /\
  fst (move 200 0 500 (PyInt 0) (session_on [])) =
    Raise (TimeoutError (S754_finite false 6755399441055744 (-52))).
Proof.
  split; [|reflexivity].
  exact (proj1 (proj2 (move_raises_only 200 0 500 (PyInt 0) (session_on [])
                         (TimeoutError (S754_finite false 6755399441055744 (-52)))
                         eq_refl))).
Defined.


(** X11.  The wire codes of [Curve] round-trip: [Curve(int(c))] is [c],
    a member found for [n] has value [n], a lookup succeeds exactly for
    [0 <= n <= 3], and different members have different codes. *)
Theorem curve_code_roundtrip :
  (forall c, by_value (Curves.int c) = Some c) /\
  (forall n c, by_value n = Some c -> Curves.int c = n) /\
  (forall n, (exists c, by_value n = Some c) <-> 0 <= n <= 3) /\
  (forall c c', Curves.int c = Curves.int c' -> c = c') /\
  (forall c, Curve_call (PyCurve c) = Some c /\
             Curve_call (PyInt (Curves.int c)) = Some c).
Proof.
  assert (Hback : forall n c, by_value n = Some c -> Curves.int c = n).
  { intros n c. unfold by_value.
    destruct (Z.eqb_spec n 0) as [->|]; [intros [= <-]; reflexivity|].
    destruct (Z.eqb_spec n 1) as [->|]; [intros [= <-]; reflexivity|].
    destruct (Z.eqb_spec n 2) as [->|]; [intros [= <-]; reflexivity|].
    destruct (Z.eqb_spec n 3) as [->|]; [intros [= <-]; reflexivity|].
    discriminate. }
  split; [intros []; reflexivity|]. split; [exact Hback|].
  split; [|split].
  - intros n. split.
    + intros [c Hc]. apply Hback in Hc. subst n. destruct c; simpl; lia.
    + intros Hn. destruct (by_value_member n Hn) as (c & Hc & _).
      exists c. exact Hc.
  - intros [] []; simpl; intros E; try reflexivity; discriminate.
  - intros []; split; reflexivity.
Qed.

Lemma curve_code_roundtrip_witness : Curves.int EASE_OUT = 2.
Proof.
  exact (proj1 (proj2 curve_code_roundtrip) 2 EASE_OUT eq_refl).
Defined.

(** * Properties of the example script *)

Section Script.

Import Example.

Lemma sends_between_bind A B lo hi lo' hi' (m : IO A) (k : A -> IO B) :
  sends_between lo hi m -> (forall a, sends_between lo' hi' (k a)) ->
  sends_between (lo + lo') (hi + hi') (io_bind m k).
Proof.
  intros Hm Hk p. unfold io_bind.
  destruct (Hm p) as (Hs & Ho & Hw). destruct (m p) as [[a|e] p1]; simpl in *.
  - destruct (Hk a p1) as (Hs' & Ho' & Hw'). rewrite Hs', Ho'.
    split; [exact Hs|]. split; [exact Ho|].
    intros Hmax. destruct (Hw Hmax) as [Hhi Hlo]. rewrite Hs in Hw'.
    destruct (Hw' Hmax) as [Hhi' Hlo'].
    split; [lia|]. intros Hok. specialize (Hlo' Hok).
    assert (writes (world p) + lo <= writes (world p1))%nat
      by (apply Hlo; eexists; reflexivity).
    lia.
  - split; [exact Hs|]. split; [exact Ho|]. intros Hmax.
    destruct (Hw Hmax) as [Hhi _]. split; [lia|].
    intros [b Hb]. discriminate.
Qed.

Lemma sends_between_print line : sends_between 0 0 (print line).
Proof. intros p. simpl. repeat split; intros; lia. Qed.

Lemma sends_between_sleep seconds : sends_between 0 0 (time_sleep seconds).
Proof. intros p. simpl. repeat split; intros; lia. Qed.

(** A [move] that returns normally under a non-negative budget has
    written. *)
Lemma move_ok_writes dx dy duration_ms v w :
  0 <= MAX_RETRIES (self w) ->
  fst (move dx dy duration_ms v w) = Ok tt ->
  (writes w < writes (snd (move dx dy duration_ms v w)))%nat.
Proof.
  intros Hmax.
  destruct (connected_dec w) as [H|H];
    [|rewrite (move_not_connected _ _ _ _ _ H); simpl; discriminate].
  rewrite (move_connected _ _ _ _ _ H).
  destruct (curve_of v) as [c|]; [|simpl; discriminate].
  destruct (encode_move_command dx dy duration_ms (Curves.int c))
    as [command|e]; [|simpl; discriminate].
  destruct (timeout_seconds_of w duration_ms) as [t|e]; [|simpl; discriminate].
  pose proof (range_nonempty _ Hmax) as Hne.
  destruct (range (MAX_RETRIES (self w) + 1)) as [|attempt rest];
    [congruence|].
  intros _. apply send_with_retry_writes.
Qed.

Lemma sends_between_move dx dy duration_ms v :
  sends_between 1 2 (call (move dx dy duration_ms v)).
Proof.
  intros p. unfold call.
  destruct (move_frame dx dy duration_ms v (world p)) as (Hs & Ho & _).
  assert (Hw : MAX_RETRIES (self (world p)) = 1 ->
               (writes (snd (move dx dy duration_ms v (world p)))
                <= writes (world p) + 2)%nat).
  { intros Hmax.
    destruct (connected_dec (world p)) as [H|H].
    - rewrite (move_connected _ _ _ _ _ H).
      destruct (curve_of v) as [c|]; [|simpl; lia].
      destruct (encode_move_command dx dy duration_ms (Curves.int c))
        as [command|e]; [|simpl; lia].
      destruct (timeout_seconds_of (world p) duration_ms) as [t|e];
        [|simpl; lia].
      destruct (send_with_retry_frame command t
                  (range (MAX_RETRIES (self (world p)) + 1)) (world p))
        as (_ & _ & k' & Hk' & Hw' & _).
      unfold writes. rewrite Hw', length_app, repeat_length.
      rewrite range_length, Hmax in Hk'. simpl in Hk'. lia.
    - rewrite (move_not_connected _ _ _ _ _ H). simpl. lia. }
  pose proof (move_ok_writes dx dy duration_ms v (world p)) as Hlo.
  destruct (move dx dy duration_ms v (world p)) as [r w1]. simpl in *.
  split; [exact Hs|]. split; [exact Ho|]. intros Hmax.
  split; [auto|]. intros [[] Hok]. subst r.
  assert (writes (world p) < writes w1)%nat by (apply Hlo; [lia|reflexivity]).
  lia.
Qed.

Lemma sends_between_demo : sends_between 7 14 demo.
Proof.
  cut (sends_between
         (0 + (0 + (0 + (0 + (1 + (1 + (1 + (1 + (0 + (0 + (1 + (0 + (0 + (1
          + (0 + (0 + (1 + 0)))))))))))))))))
         (0 + (0 + (0 + (0 + (2 + (2 + (2 + (2 + (0 + (0 + (2 + (0 + (0 + (2
          + (0 + (0 + (2 + 0)))))))))))))))))
         demo); [exact (fun H => H)|].
  unfold demo.
  repeat (apply sends_between_bind; [|intros _]);
    auto using sends_between_print, sends_between_sleep, sends_between_move.
Qed.

(** The [with] block, with [__enter__] and [__exit__] run. *)
Lemma with_mouse_run A (body : IO A) p :
  with_mouse body p =
  (fst (body p),
   mkProc (stdout (snd (body p))) (snd (close (world (snd (body p)))))).
Proof.
  unfold with_mouse, call, __enter__, __exit__, ret.
  destruct p as [out w]. simpl.
  destruct (body (mkProc out w)) as [r [out2 w2]]. simpl.
  assert (Hc : fst (close w2) = Ok tt).
  { unfold close. destruct (_serial (self w2)); [|reflexivity].
    destruct (Serial.is_open (tty w2)); reflexivity. }
  destruct (close w2) as [[[]|e] w3]; simpl in *; [reflexivity|discriminate].
Qed.

(** [close] ends with the port not open when the session owned it, and
    writes nothing. *)
Lemma close_releases w :
  owned w -> Serial.is_open (tty (snd (close w))) = false.
Proof.
  intros Ho. unfold owned in Ho. unfold close.
  destruct (_serial (self w)) eqn:E; simpl; [|auto].
  destruct (Serial.is_open (tty w)) eqn:O; simpl; auto.
Qed.

Lemma close_writes w : writes (snd (close w)) = writes w.
Proof.
  unfold close. destruct (_serial (self w)); [|reflexivity].
  destruct (Serial.is_open (tty w)); reflexivity.
Qed.

End Script.

(** X12.  The [with] block closes the session whatever its body does: the
    block gives the body's result (an exception of the body is not
    swallowed) and the body's output, and afterwards the session is not
    connected; if the transport was reachable only through the session when
    the body ended, the port is not open. *)
Theorem with_mouse_closes A (body : Example.IO A) p :
  let done := Example.with_mouse body p in
  fst done = fst (body p) /\
  Example.stdout (snd done) = Example.stdout (snd (body p)) /\
  connected (Example.world (snd done)) = false /\
  (owned (Example.world (snd (body p))) ->
   Serial.is_open (tty (Example.world (snd done))) = false).
Proof.
  cbv zeta. rewrite with_mouse_run. simpl.
  split; [reflexivity|]. split; [reflexivity|].
  split; [apply close_disconnects | apply close_releases].
Qed.

Lemma with_mouse_closes_witness :
  Serial.is_open
    (tty (Example.world
            (snd (Example.with_mouse
                    (Example.call (move 0 0 0 (PyInt 0)))
                    (Example.mkProc [] (session_on []))))))
  = false.
Proof.
  apply (with_mouse_closes unit (Example.call (move 0 0 0 (PyInt 0)))
           (Example.mkProc [] (session_on []))).
  unfold owned. vm_compute. discriminate.
Defined.

(** X13.  [main] leaves the port closed on every path: whatever is behind
    the port name and whatever the peer answers, when [main] ends - by
    returning or by an exception - the session is not connected, the
    transport is not open, and at most 14 frames have been written. *)
Theorem main_closes_port env :
  let p := snd (Example.main env) in
  connected (Example.world p) = false /\
  Serial.is_open (tty (Example.world p)) = false /\
  (writes (Example.world p) <= 14)%nat.
Proof.
  cbv zeta. unfold Example.main.
  destruct env as [reason|answers|e];
    [repeat split; try reflexivity; unfold writes; simpl; lia|
    |destruct e; repeat split; try reflexivity; unfold writes; simpl; lia].
  change (__init__ "/dev/ttyACM0" DEFAULT_BAUDRATE DEFAULT_TIMEOUT_BUFFER_MS
            (Serial.Present answers))
    with (Ok tt, session_on answers).
  cbv iota beta zeta.
  set (p0 := Example.mkProc _ (session_on answers)).
  destruct (sends_between_demo p0) as (Hs & Ho & Hw).
  rewrite with_mouse_run. cbn [fst snd Example.stdout Example.world].
  split; [apply close_disconnects|]. split.
  - apply close_releases. unfold owned. rewrite Hs. intros C.
    discriminate C.
  - rewrite close_writes. destruct (Hw eq_refl) as [Hhi _]. exact Hhi.
Qed.

(** X14.  Against a peer that acknowledges each of the first seven frames,
    [main] returns normally: it prints its eight lines in order, writes exactly
    the frames of its seven commands, in order and once each, and leaves
    the rest of the peer's answers unconsumed. *)
Theorem main_all_acknowledged answers tail :
  List.length answers = 7%nat ->
  Forall (fun answer => hd_error answer = Some ACK_OK) answers ->
  let r := fst (Example.main (Serial.Present (answers ++ tail))) in
  let p := snd (Example.main (Serial.Present (answers ++ tail))) in
  r = Ok tt /\
  Example.stdout p =
    ["Connecting to Arduino on /dev/ttyACM0...";
     "Connected! Starting mouse movement demo...";
     "(Move your eyes to the mouse cursor to see the effect)";
     Example.nl ++ "1. Drawing a square (LINEAR curve)...";
     Example.nl ++ "2. Smooth diagonal movement (EASE_IN_OUT curve)...";
     Example.nl ++ "3. Quick return (EASE_OUT curve)...";
     Example.nl ++ "4. Slow start movement (EASE_IN curve)...";
     Example.nl ++ "Demo complete!"]%string /\
  map Ok (Serial.written (tty (Example.world p))) =
    map (fun '(dx, dy, duration_ms, curve) =>
           encode_move_command dx dy duration_ms curve)
        Example.demo_commands /\
  Serial.peer (tty (Example.world p)) = tail.
Proof.
  intros Hlen Hack.
  do 7 (destruct answers as [|[|? ?] answers];
        [discriminate Hlen | inversion Hack; discriminate |];
        apply Forall_cons_iff in Hack; destruct Hack as [[= ->] Hack]).
  destruct answers; [|discriminate Hlen].
  cbv zeta. repeat split; vm_compute; reflexivity.
Qed.

Lemma main_all_acknowledged_witness :
  fst (Example.main (Serial.Present (repeat [ACK_OK] 7 ++ [[NAK_INVALID]])))
  = Ok tt /\
  Serial.peer
    (tty (Example.world
            (snd (Example.main
                    (Serial.Present (repeat [ACK_OK] 7 ++ [[NAK_INVALID]])))))) =
  [[NAK_INVALID]].
Proof.
  destruct (main_all_acknowledged (repeat [ACK_OK] 7) [[NAK_INVALID]])
    as (Hr & _ & _ & Hp).
  - reflexivity.
  - repeat constructor.
  - split; [exact Hr | exact Hp].
Defined.

(** The completion line is printed exactly when the body of the block
    returns normally. *)
Lemma demo_completes w :
  let p0 := Example.mkProc ["Connecting to Arduino on /dev/ttyACM0..."%string] w in
  fst (Example.demo p0) = Ok tt <->
  In (Example.nl ++ "Demo complete!")%string
     (Example.stdout (snd (Example.demo p0))).
Proof.
  cbv zeta.
  unfold Example.demo, Example.io_bind, Example.print, Example.time_sleep,
    Example.call, Example.io_ret.
  cbn [Example.stdout Example.world fst snd app].
  repeat match goal with
         | |- context [move ?a ?b ?c ?d ?x] =>
             destruct (move a b c d x) as [[[]|?] ?];
             cbn [Example.stdout Example.world fst snd app]
         end;
    (split; [intros H; try discriminate H; simpl; tauto |]);
    simpl; intros H; try reflexivity;
    repeat (destruct H as [H|H]; [try discriminate H|]); try contradiction.
Qed.

(** X15.  [main] returns normally only when every command was acknowledged:
    it returns exactly when it has printed its completion line; if it
    returns, the port was opened and at least seven frames were written;
    and when the port cannot be opened it raises the [ConnectionError] of
    the constructor after its first line, with nothing written. *)
Theorem main_returns_iff_complete env :
  let r := fst (Example.main env) in
  let p := snd (Example.main env) in
  (r = Ok tt <-> In (Example.nl ++ "Demo complete!")%string (Example.stdout p)) /\
  (r = Ok tt ->
   (exists answers, env = Serial.Present answers) /\
   (7 <= writes (Example.world p))%nat) /\
  (forall reason,
      env = Serial.Absent reason ->
      r = Raise (ConnectionError
                   ("Failed to connect to Arduino on /dev/ttyACM0: " ++ reason)) /\
      Example.stdout p = ["Connecting to Arduino on /dev/ttyACM0..."%string] /\
      writes (Example.world p) = 0%nat).
Proof.
  cbv zeta. unfold Example.main.
  destruct env as [reason|answers|e].
  - split; [split; [discriminate|]|].
    { simpl. intros [H|[]]. discriminate H. }
    split; [discriminate|].
    intros reason' [= <-]. repeat split.
  - change (__init__ "/dev/ttyACM0" DEFAULT_BAUDRATE DEFAULT_TIMEOUT_BUFFER_MS
              (Serial.Present answers))
      with (Ok tt, session_on answers).
    cbv iota beta zeta. rewrite with_mouse_run.
    cbn [fst snd Example.stdout Example.world].
    split; [apply demo_completes|].
    split; [|intros reason [=]].
    intros Hok. split; [eexists; reflexivity|].
    rewrite close_writes.
    destruct (sends_between_demo
                (Example.mkProc ["Connecting to Arduino on /dev/ttyACM0..."%string]
                                (session_on answers))) as (_ & _ & Hw).
    destruct (Hw eq_refl) as [_ Hlo].
    assert (Hex : exists a,
               fst (Example.demo
                      (Example.mkProc
                         ["Connecting to Arduino on /dev/ttyACM0..."%string]
                         (session_on answers))) = Ok a)
      by (exists tt; exact Hok).
    specialize (Hlo Hex). exact Hlo.
  - destruct e;
      (split; [split; [discriminate|]|];
       [simpl; intros [H|[]]; discriminate H|]);
      (split; [discriminate|]); intros reason [=].
Qed.

Lemma main_returns_iff_complete_witness :
  fst (Example.main (Serial.Absent "no such device")) =
    Raise (ConnectionError
             "Failed to connect to Arduino on /dev/ttyACM0: no such device") /\
  writes (Example.world (snd (Example.main (Serial.Absent "no such device"))))
  = 0%nat.
Proof.
  destruct (main_returns_iff_complete (Serial.Absent "no such device"))
    as (_ & _ & H).
  destruct (H "no such device" eq_refl) as (Hr & _ & Hw).
  split; [exact Hr | exact Hw].
Defined.

Lemma main_closes_port_witness :
  Serial.is_open
    (tty (Example.world
            (snd (Example.main (Serial.Present [[ACK_OK]; [NAK_INVALID]])))))
  = false.
Proof.
  exact (proj1 (proj2 (main_closes_port
                         (Serial.Present [[ACK_OK]; [NAK_INVALID]])))).
Defined.
